(** * 3D World Builder: the world simulation core of [LightingVisualizer]

    A shallow embedding of the stateful core of the scene editor: the
    frame-driven clock and the time-of-day derivation, the rain particle
    buffer, and the registry of user-created lights and objects together
    with the control-panel folders bound to them.

    Conventions of the embedding.
    - A JavaScript number is an exact rational ([Q]); rounding of IEEE
      doubles is not modelled.  Array lengths and creation counters are
      [nat].
    - Every object created with [new] (lights, helpers, meshes, folders)
      is a reference allocated from a counter; the scene graph is the set
      of references attached to it, the control panel the list of its
      top-level folders.
    - [Math.random()] is an oracle [Math_random : N -> Q] read through a
      draw counter kept in the state.
    - Trigonometric placement of the sun and the moon, rendering, audio
      playback and camera controls have no influence on the state modelled
      here and are left out. *)

From Stdlib Require Import QArith Qabs Qminmax Qround Lqa Lia ZArith String List.
From stdpp Require Import gmap strings list pretty.

Local Open Scope Q_scope.

(** ** JavaScript numbers *)

Module JS.

(** [a < b], [a >= b] and [a > b] on numbers. *)
Definition ltb (a b : Q) : bool := negb (Qle_bool b a).
Definition geb (a b : Q) : bool := Qle_bool b a.
Definition gtb (a b : Q) : bool := ltb b a.

(** Rounding toward zero. *)
Definition trunc (q : Q) : Z := Z.quot (Qnum q) (Zpos (Qden q)).

(** [a % b]: the remainder takes the sign of the dividend. *)
Definition rem (a b : Q) : Q := a - b * inject_Z (trunc (a / b)).

Definition Math_max (a b : Q) : Q := Qmax a b.
Definition Math_min (a b : Q) : Q := Qmin a b.
Definition Math_abs (a : Q) : Q := Qabs a.

End JS.

(** ** Data model *)

Definition ref := nat.

Record Vector3 := { vx : Q; vy : Q; vz : Q }.

(** A colour as the arguments handed to [THREE.Color.setHSL]. *)
Record HSL := { hue : Q; saturation : Q; lightness : Q }.

Record Material := { m_color : N; roughness : Q; metalness : Q }.

(** Objects living behind a reference. *)
Inductive Obj : Type :=
| LightObj (kind : string) (color : N) (intensity : Q)
           (position : option Vector3) (castShadow : bool)
| HelperObj (light : ref)
| MeshObj (shape : string) (material : Material) (position : Vector3).

(** [interface LightSource]. *)
Record LightSource := {
  ls_name : string;
  ls_light : ref;
  ls_helper : option ref;
  ls_color : N;
  ls_intensity : Q;
  ls_type : string;
  ls_folder : option ref
}.

(** A top-level folder of the control panel. *)
Record Folder := { folder_ref : ref; folder_name : string }.

(** What the panel does when asked for a folder under a name it already
    shows: dat.GUI throws; a panel keyed by folder identity accepts. *)
Inductive FolderPolicy := RejectDuplicate | AllowDuplicate.

Record GUI := { policy : FolderPolicy; folders : list Folder }.

(** A call either runs to its end or is cut short by an exception; both
    leave a state behind. *)
Inductive Completion (A : Type) : Type :=
| Normal (a : A)
| Thrown (a : A).
Arguments Normal {A} a.
Arguments Thrown {A} a.

Definition state_of {A : Type} (c : Completion A) : A :=
  match c with Normal a => a | Thrown a => a end.

(** The part of [LightingVisualizer] that the create and remove
    operations read and write. *)
Record Registry := {
  scene : gset ref;
  gui : GUI;
  heap : gmap ref Obj;
  next_ref : ref;
  objects : list ref;
  lightSources : list LightSource;
  sounds : list string
}.

Record Clock := { c_time : Q; c_timeSpeed : Q; c_isPlaying : bool }.

(** What [updateTimeOfDay] writes. *)
Record Celestial := {
  isDay : bool;
  sunVisible : bool;
  moonVisible : bool;
  starsVisible : bool;
  starsOpacity : Q;
  sunLightIntensity : Q;
  ambientIntensity : Q;
  background : HSL
}.

(** The [THREE.Points] object behind [this.rain]: the flat position buffer
    (three slots per particle), the fall speeds and the visibility flag. *)
Record Points := {
  positions : list Q;
  velocities : list Q;
  visible : bool
}.

(** [this.rain] (null until [createRain] has run), [this.isRaining] and
    [this.rainIntensity]. *)
Record Weather := {
  rain : option Points;
  isRaining : bool;
  rainIntensity : Q
}.

Record NatureScene := {
  dayTime : Q;
  clouds : list Q;
  windSpeed : Q;
  skyColor : HSL
}.

Record LightingVisualizer := {
  registry : Registry;
  clock : Clock;
  celestial : Celestial;
  weather : Weather;
  natureScene : NatureScene;
  draws : N
}.

Definition time (st : LightingVisualizer) : Q := c_time (clock st).
Definition timeSpeed (st : LightingVisualizer) : Q := c_timeSpeed (clock st).
Definition isPlaying (st : LightingVisualizer) : bool := c_isPlaying (clock st).

(** Field updates. *)
Definition with_registry (f : Registry -> Registry) (st : LightingVisualizer)
  : LightingVisualizer :=
  {| registry := f (registry st); clock := clock st; celestial := celestial st;
     weather := weather st; natureScene := natureScene st; draws := draws st |}.

Definition with_clock (c : Clock) (st : LightingVisualizer) : LightingVisualizer :=
  {| registry := registry st; clock := c; celestial := celestial st;
     weather := weather st; natureScene := natureScene st; draws := draws st |}.

Definition with_celestial (c : Celestial) (st : LightingVisualizer)
  : LightingVisualizer :=
  {| registry := registry st; clock := clock st; celestial := c;
     weather := weather st; natureScene := natureScene st; draws := draws st |}.

(** The weather together with the number of draws made so far. *)
Definition with_weather (w : Weather) (k : N) (st : LightingVisualizer)
  : LightingVisualizer :=
  {| registry := registry st; clock := clock st; celestial := celestial st;
     weather := w; natureScene := natureScene st; draws := k |}.

Definition with_nature (n : NatureScene) (st : LightingVisualizer)
  : LightingVisualizer :=
  {| registry := registry st; clock := clock st; celestial := celestial st;
     weather := weather st; natureScene := n; draws := draws st |}.

(** ** Time of day *)

Section TimeOfDay.
Import JS.

Definition twilightStart : Q := 18.
Definition twilightEnd : Q := 20.
Definition dawnStart : Q := 4.
Definition dawnEnd : Q := 6.

(** [hour >= 6 && hour < 18] *)
Definition isDayAt (hour : Q) : bool := geb hour 6 && ltb hour 18.

(** The value stored in the star material's [opacity]. *)
Definition starOpacityAt (hour : Q) : Q :=
  let opacity :=
    if negb (isDayAt hour) then
      if geb hour twilightStart && ltb hour twilightEnd then
        (hour - twilightStart) / (twilightEnd - twilightStart)
      else if geb hour dawnStart && ltb hour dawnEnd then
        1 - (hour - dawnStart) / (dawnEnd - dawnStart)
      else 1
    else 0 in
  opacity * 1.2.

(** The intensity given to the sun/moon directional light. *)
Definition sunIntensityAt (hour : Q) : Q :=
  if isDayAt hour then
    let noon := 12 in
    let distanceFromNoon := Math_abs (hour - noon) in
    Math_max 0 (5 - (distanceFromNoon / 6) * 4)
  else
    let midnight := 0 in
    let distanceFromMidnight := Math_abs (hour - midnight) in
    Math_max 0 (1 - (distanceFromMidnight / 6)).

(** The colour given to [scene.background]. *)
Definition skyColorAt (hour : Q) : HSL :=
  if isDayAt hour then
    {| hue := 0.6; saturation := 0.9; lightness := 0.7 |}
  else
    let nightProgress := Math_min 1 (Math_max 0 ((hour - 18) / 2)) in
    if geb hour 4 && ltb hour 6 then
      let sunriseProgress := (hour - 4) / 2 in
      {| hue := 0.6; saturation := 0.9;
         lightness := 0.05 + sunriseProgress * 0.65 |}
    else
      {| hue := 0.6; saturation := 0.8;
         lightness := 0.05 + nightProgress * 0.05 |}.

Definition updateTimeOfDay (st : LightingVisualizer) : LightingVisualizer :=
  let hour := rem (time st) 24 in
  let day := isDayAt hour in
  with_celestial
    {| isDay := day;
       sunVisible := day;
       moonVisible := negb day;
       starsVisible := negb day;
       starsOpacity := starOpacityAt hour;
       sunLightIntensity := sunIntensityAt hour;
       ambientIntensity := if day then 0.3 else 0.15;
       background := skyColorAt hour |} st.

(** The sky-dome colour of [NatureScene.update], from its own clock. *)
Definition natureSkyAt (dayTime : Q) : HSL :=
  let time := rem dayTime 24 / 24 in
  if geb time 0.25 && ltb time 0.75 then
    {| hue := 0.6; saturation := 0.9; lightness := 0.7 |}
  else if geb time 0.167 && ltb time 0.25 then
    let sunriseProgress := (time - 0.167) / 0.083 in
    {| hue := 0.6; saturation := 0.9;
       lightness := 0.05 + sunriseProgress * 0.65 |}
  else
    let nightProgress := Math_min 1 (Math_max 0 ((time - 0.75) / 0.083)) in
    {| hue := 0.6; saturation := 0.8;
       lightness := 0.05 + nightProgress * 0.05 |}.

(** [NatureScene.update]; [delta] is what [clock.getDelta()] returns.
    The water ripple (a sine of the elapsed time) is left out. *)
Definition NatureScene_update (delta : Q) (n : NatureScene) : NatureScene :=
  let dayTime' := dayTime n + delta * 0.1 in
  let drift (x : Q) :=
    let x' := x + windSpeed n * delta in
    if gtb x' 100 then -100 else x' in
  {| dayTime := dayTime';
     clouds := List.map drift (clouds n);
     windSpeed := windSpeed n;
     skyColor := natureSkyAt dayTime' |}.

Definition set_dayTime (t : Q) (n : NatureScene) : NatureScene :=
  {| dayTime := t; clouds := clouds n; windSpeed := windSpeed n;
     skyColor := skyColor n |}.

End TimeOfDay.

(** ** Control panel and scene graph *)

Definition has_folder_named (name : string) (g : GUI) : bool :=
  existsb (fun f => String.eqb (folder_name f) name) (folders g).

(** [gui.addFolder(name)] for a folder born at reference [r]: [None] is
    the exception of a panel that refuses a second folder of one name. *)
Definition addFolder (name : string) (r : ref) (g : GUI) : option GUI :=
  match policy g with
  | RejectDuplicate =>
      if has_folder_named name g then None
      else Some {| policy := policy g;
                   folders := folders g ++ [{| folder_ref := r; folder_name := name |}] |}
  | AllowDuplicate =>
      Some {| policy := policy g;
              folders := folders g ++ [{| folder_ref := r; folder_name := name |}] |}
  end.

(** [gui.removeFolder(folder)] *)
Definition removeFolder (folder : ref) (g : GUI) : GUI :=
  {| policy := policy g;
     folders := filter (fun f => folder_ref f ≠ folder) (folders g) |}.

(** [new ...]: store the object at the next free reference. *)
Definition alloc (o : Obj) (r : Registry) : ref * Registry :=
  (next_ref r,
   {| scene := scene r; gui := gui r; heap := <[next_ref r := o]> (heap r);
      next_ref := S (next_ref r); objects := objects r;
      lightSources := lightSources r; sounds := sounds r |}).

(** A reference for an object whose content is kept elsewhere (a folder). *)
Definition fresh (r : Registry) : ref * Registry :=
  (next_ref r,
   {| scene := scene r; gui := gui r; heap := heap r;
      next_ref := S (next_ref r); objects := objects r;
      lightSources := lightSources r; sounds := sounds r |}).

(** [this.scene.add(o)] and [this.scene.remove(o)] *)
Definition scene_add (o : ref) (r : Registry) : Registry :=
  {| scene := {[o]} ∪ scene r; gui := gui r; heap := heap r;
     next_ref := next_ref r; objects := objects r;
     lightSources := lightSources r; sounds := sounds r |}.

Definition scene_remove (o : ref) (r : Registry) : Registry :=
  {| scene := scene r ∖ {[o]}; gui := gui r; heap := heap r;
     next_ref := next_ref r; objects := objects r;
     lightSources := lightSources r; sounds := sounds r |}.

Definition set_gui (g : GUI) (r : Registry) : Registry :=
  {| scene := scene r; gui := g; heap := heap r;
     next_ref := next_ref r; objects := objects r;
     lightSources := lightSources r; sounds := sounds r |}.

Definition set_objects (l : list ref) (r : Registry) : Registry :=
  {| scene := scene r; gui := gui r; heap := heap r;
     next_ref := next_ref r; objects := l;
     lightSources := lightSources r; sounds := sounds r |}.

Definition set_lightSources (l : list LightSource) (r : Registry) : Registry :=
  {| scene := scene r; gui := gui r; heap := heap r;
     next_ref := next_ref r; objects := objects r;
     lightSources := l; sounds := sounds r |}.

(** [this.soundManager.playSound(name)]: the request is logged. *)
Definition playSound (name : string) (r : Registry) : Registry :=
  {| scene := scene r; gui := gui r; heap := heap r;
     next_ref := next_ref r; objects := objects r;
     lightSources := lightSources r; sounds := sounds r ++ [name] |}.

(** ** Lights *)

Definition is_light_type (type : string) : bool :=
  String.eqb type "Directional" || String.eqb type "Point" || String.eqb type "Spot".

(** The number written into the name of the next light. *)
Definition light_counter (r : Registry) : nat := (length (lightSources r) + 1)%nat.

(** [`${type} Light ${this.lightSources.length + 1} (edit or remove)`] *)
Definition light_name (type : string) (r : Registry) : string :=
  type +:+ " Light " +:+ pretty (light_counter r) +:+ " (edit or remove)".

Definition Registry_addLight (type : string) (position : option Vector3)
  (r : Registry) : Completion Registry :=
  let color := 0xffffff%N in
  let intensity := 5 in
  let name := light_name type r in
  if is_light_type type then
    let '(light, r) := alloc (LightObj type color intensity position true) r in
    let r := scene_add light r in
    let '(helper, r) := alloc (HelperObj light) r in
    let r := scene_add helper r in
    let '(lightFolder, r) := fresh r in
    match addFolder name lightFolder (gui r) with
    | None => Thrown r
    | Some g =>
        let r := set_gui g r in
        let r := set_lightSources
                   (lightSources r ++
                    [{| ls_name := name; ls_light := light; ls_helper := Some helper;
                        ls_color := color; ls_intensity := intensity;
                        ls_type := type; ls_folder := Some lightFolder |}]) r in
        Normal (playSound "addLight" r)
    end
  else Normal r.

Definition Registry_removeLight (name : string) (r : Registry) : Registry :=
  match List.find (fun source => String.eqb (ls_name source) name) (lightSources r) with
  | Some lightSource =>
      let r := scene_remove (ls_light lightSource) r in
      let r := match ls_helper lightSource with
               | Some helper => scene_remove helper r
               | None => r
               end in
      let r := match ls_folder lightSource with
               | Some folder => set_gui (removeFolder folder (gui r)) r
               | None => r
               end in
      let r := set_lightSources
                 (filter (fun source => ls_name source ≠ name) (lightSources r)) r in
      playSound "removeLight" r
  | None => r
  end.

(** ** Objects *)

Definition is_object_type (type : string) : bool :=
  String.eqb type "Sphere" || String.eqb type "Cube" || String.eqb type "Torus"
  || String.eqb type "Cylinder" || String.eqb type "Cone".

(** [`${type} ${this.objects.length} (edit or remove)`] *)
Definition object_name (type : string) (r : Registry) : string :=
  type +:+ " " +:+ pretty (length (objects r)) +:+ " (edit or remove)".

(** [addObject]; [rx] and [rz] are the two values drawn from
    [Math.random()] for the position. *)
Definition Registry_addObject (type : string) (rx rz : Q) (r : Registry)
  : Completion Registry :=
  if is_object_type type then
    let material := {| m_color := 0x808080%N; roughness := 0.5; metalness := 0.5 |} in
    let height :=
      if String.eqb type "Cylinder" || String.eqb type "Cone" then 1
      else if String.eqb type "Torus" then 2 else 0.5 in
    let position := {| vx := (rx - 0.5) * 5; vy := height; vz := (rz - 0.5) * 5 |} in
    let '(mesh, r) := alloc (MeshObj type material position) r in
    let r := scene_add mesh r in
    let r := set_objects (objects r ++ [mesh]) r in
    let '(objectFolder, r) := fresh r in
    match addFolder (object_name type r) objectFolder (gui r) with
    | None => Thrown r
    | Some g => Normal (playSound "addObject" (set_gui g r))
    end
  else Normal r.

Definition Registry_deleteObject (mesh folder : ref) (r : Registry) : Registry :=
  let r := playSound "removeObject" r in
  let r := scene_remove mesh r in
  let r := set_objects (filter (fun obj => obj ≠ mesh) (objects r)) r in
  set_gui (removeFolder folder (gui r)) r.

(** ** The visualizer: rain, control-panel handlers, the frame loop *)

Section Visualizer.
Import JS.

(** The values [Math.random()] returns, in the order they are drawn. *)
Variable Math_random : N -> Q.

Definition rainCount : nat := 15 * 1000.

(** The filling loop of [createRain], four draws per particle. *)
Fixpoint fill_rain (n : nat) (k : N) : list Q * list Q * N :=
  match n with
  | O => ([], [], k)
  | S n' =>
      let x := (Math_random k - 0.5) * 200 in
      let y := Math_random (k + 1) * 100 in
      let z := (Math_random (k + 2) - 0.5) * 200 in
      let v := 0.5 + Math_random (k + 3) * 0.5 in
      let '(ps, vs, k') := fill_rain n' (k + 4) in
      (x :: y :: z :: ps, v :: vs, k')
  end.

Definition createRain (st : LightingVisualizer) : LightingVisualizer :=
  let '(ps, vs, k) := fill_rain rainCount (draws st) in
  let points := {| positions := ps; velocities := vs; visible := false |} in
  let w := {| rain := Some points; isRaining := isRaining (weather st);
              rainIntensity := rainIntensity (weather st) |} in
  let '(o, r) := fresh (registry st) in
  with_registry (fun _ => scene_add o r) (with_weather w k st).

(** The values [i] taken by [for (let i = 0; i < len; i += 3)]. *)
Definition stride3 (len : nat) : list nat :=
  (fun j => (3 * j)%nat) <$> seq 0 ((len + 2) / 3).

(** The body of the loop of [updateRain] at index [i]. *)
Definition fall (intensity : Q) (velocities : list Q)
  (acc : list Q * N) (i : nat) : list Q * N :=
  let '(positions, k) := acc in
  match positions !! (i + 1)%nat, velocities !! (i / 3)%nat with
  | Some y, Some v =>
      let y' := y - v * intensity in
      let positions := <[(i + 1)%nat := y']> positions in
      if ltb y' 0 then
        let positions := <[(i + 1)%nat := 100]> positions in
        let positions := <[i := (Math_random k - 0.5) * 200]> positions in
        let positions :=
          <[(i + 2)%nat := (Math_random (k + 1) - 0.5) * 200]> positions in
        (positions, (k + 2)%N)
      else (positions, k)
  | _, _ => acc
  end.

Definition updateRain (st : LightingVisualizer) : LightingVisualizer :=
  let w := weather st in
  match rain w with
  | Some points =>
      if isRaining w then
        let '(ps, k) :=
          fold_left (fall (rainIntensity w) (velocities points))
                    (stride3 (length (positions points)))
                    (positions points, draws st) in
        with_weather
          {| rain := Some {| positions := ps; velocities := velocities points;
                             visible := visible points |};
             isRaining := isRaining w; rainIntensity := rainIntensity w |} k st
      else st
  | None => st
  end.

(** The body of the reset loop run when rain is switched on. *)
Definition respawn (acc : list Q * N) (i : nat) : list Q * N :=
  let '(positions, k) := acc in
  let positions := <[i := (Math_random k - 0.5) * 200]> positions in
  let positions := <[(i + 1)%nat := Math_random (k + 1) * 100]> positions in
  let positions :=
    <[(i + 2)%nat := (Math_random (k + 2) - 0.5) * 200]> positions in
  (positions, (k + 3)%N).

(** The handler of the [Enable Rain] checkbox. *)
Definition onRainEnabledChange (value : bool) (st : LightingVisualizer)
  : LightingVisualizer :=
  let w := weather st in
  match rain w with
  | Some points =>
      let '(ps, k) :=
        if value then
          fold_left respawn (stride3 (length (positions points)))
                    (positions points, draws st)
        else (positions points, draws st) in
      with_weather
        {| rain := Some {| positions := ps; velocities := velocities points;
                           visible := value |};
           isRaining := value; rainIntensity := rainIntensity w |} k st
  | None =>
      with_weather {| rain := None; isRaining := value;
                      rainIntensity := rainIntensity w |} (draws st) st
  end.

(** The handler of the [Rain Intensity] slider. *)
Definition onRainIntensityChange (value : Q) (st : LightingVisualizer)
  : LightingVisualizer :=
  let w := weather st in
  with_weather {| rain := rain w; isRaining := isRaining w;
                  rainIntensity := value |} (draws st) st.

(** The handlers of the [Time Controls] folder; [delta] is the reading
    of the nature scene's clock in the [update()] the hour handler
    calls. *)
Definition onHourChange (value delta : Q) (st : LightingVisualizer)
  : LightingVisualizer :=
  let st := with_clock {| c_time := value; c_timeSpeed := timeSpeed st;
                          c_isPlaying := isPlaying st |} st in
  let st := updateTimeOfDay st in
  with_nature (NatureScene_update delta (set_dayTime value (natureScene st))) st.

Definition onSpeedChange (value : Q) (st : LightingVisualizer)
  : LightingVisualizer :=
  with_clock {| c_time := time st; c_timeSpeed := value;
                c_isPlaying := isPlaying st |} st.

Definition onPlayChange (value : bool) (st : LightingVisualizer)
  : LightingVisualizer :=
  with_clock {| c_time := time st;
                c_timeSpeed := if value then 1 else 0;
                c_isPlaying := value |} st.

(** The methods of the registry on the whole visualizer. *)
Definition addLight (type : string) (position : option Vector3)
  (st : LightingVisualizer) : Completion LightingVisualizer :=
  match Registry_addLight type position (registry st) with
  | Normal r => Normal (with_registry (fun _ => r) st)
  | Thrown r => Thrown (with_registry (fun _ => r) st)
  end.

Definition removeLight (name : string) (st : LightingVisualizer)
  : LightingVisualizer :=
  with_registry (Registry_removeLight name) st.

Definition addObject (type : string) (st : LightingVisualizer)
  : Completion LightingVisualizer :=
  let rx := Math_random (draws st) in
  let rz := Math_random (draws st + 1) in
  let k := if is_object_type type then (draws st + 2)%N else draws st in
  let st' := with_weather (weather st) k st in
  match Registry_addObject type rx rz (registry st) with
  | Normal r => Normal (with_registry (fun _ => r) st')
  | Thrown r => Thrown (with_registry (fun _ => r) st')
  end.

Definition deleteObject (mesh folder : ref) (st : LightingVisualizer)
  : LightingVisualizer :=
  with_registry (Registry_deleteObject mesh folder) st.

(** [animate]: one frame.  [delta] is the reading of the nature scene's
    clock at the [getDelta()] made inside the clock branch, [delta'] the
    reading at the one made at the end of the frame; the clock of the
    visualizer itself reads neither. *)
Definition animate (delta delta' : Q) (st : LightingVisualizer)
  : LightingVisualizer :=
  let st :=
    if gtb (timeSpeed st) 0 then
      let t := time st + timeSpeed st * 0.01 in
      let t := if geb t 24 then 0 else t in
      let st := with_clock {| c_time := t; c_timeSpeed := timeSpeed st;
                              c_isPlaying := isPlaying st |} st in
      let st := updateTimeOfDay st in
      with_nature
        (NatureScene_update delta (set_dayTime (time st) (natureScene st))) st
    else st in
  let st := updateRain st in
  with_nature (NatureScene_update delta' (natureScene st)) st.

(** *** The constructor *)

Definition empty_registry (p : FolderPolicy) : Registry :=
  {| scene := ∅; gui := {| policy := p; folders := [] |}; heap := ∅;
     next_ref := 0%nat; objects := []; lightSources := []; sounds := [] |}.

(** A static object of the scene (stars, sun, moon, sun light, ambient
    light): a reference attached to the scene. *)
Definition add_static (r : Registry) : Registry :=
  let '(o, r) := fresh r in scene_add o r.

(** A fixed top-level folder of the panel. *)
Definition add_panel (name : string) (r : Registry) : Registry :=
  let '(f, r) := fresh r in
  match addFolder name f (gui r) with
  | Some g => set_gui g r
  | None => r
  end.

(** The registry after the scene set-up, [setupGUI] and the three
    initial lights. *)
Definition initial_lights (p : FolderPolicy) : Registry :=
  let r := empty_registry p in
  let r := add_static (add_static (add_static (add_static r))) in
  let r := add_panel "Controls" r in
  let r := add_panel "Camera" r in
  let r := add_panel "Time Controls" r in
  let r := add_panel "Ambient Light" r in
  let r := add_static r in
  let r := add_panel "Add Lighting" r in
  let r := add_panel "Post-Processing" r in
  let r := add_panel "Add Objects" r in
  let r := add_panel "Sound" r in
  let r := state_of (Registry_addLight "Directional"
                       (Some {| vx := 5; vy := 5; vz := 5 |}) r) in
  let r := state_of (Registry_addLight "Point"
                       (Some {| vx := -5; vy := 3; vz := 0 |}) r) in
  state_of (Registry_addLight "Spot" (Some {| vx := 0; vy := 5; vz := -5 |}) r).

(** The state in which the constructor hands over to the frame loop. *)
Definition constructor (p : FolderPolicy) : LightingVisualizer :=
  let st :=
    {| registry := initial_lights p;
       clock := {| c_time := 0; c_timeSpeed := 1; c_isPlaying := true |};
       celestial := {| isDay := true; sunVisible := true; moonVisible := false;
                       starsVisible := true; starsOpacity := 1.0;
                       sunLightIntensity := 5; ambientIntensity := 0.2;
                       background := {| hue := 0; saturation := 0;
                                        lightness := 0 |} |};
       weather := {| rain := None; isRaining := false; rainIntensity := 1.0 |};
       natureScene := {| dayTime := 0; clouds := []; windSpeed := 0.2;
                         skyColor := {| hue := 0; saturation := 0;
                                        lightness := 0 |} |};
       draws := 0 |} in
  let st := state_of (addObject "Sphere" st) in
  let st := state_of (addObject "Cube" st) in
  let st := state_of (addObject "Torus" st) in
  let st := createRain st in
  let st := with_clock {| c_time := 0; c_timeSpeed := timeSpeed st;
                          c_isPlaying := isPlaying st |} st in
  updateTimeOfDay st.

(** *** What happens after construction *)

Inductive Event : Type :=
| Frame (delta delta' : Q)
| SetHour (value delta : Q)
| SetSpeed (value : Q)
| SetPlay (value : bool)
| SetRainEnabled (value : bool)
| SetRainIntensity (value : Q)
| AddLight (type : string)
| RemoveLight (name : string)
| AddObject (type : string)
| DeleteObject (mesh folder : ref).

Definition handle (st : LightingVisualizer) (e : Event) : LightingVisualizer :=
  match e with
  | Frame delta delta' => animate delta delta' st
  | SetHour value delta => onHourChange value delta st
  | SetSpeed value => onSpeedChange value st
  | SetPlay value => onPlayChange value st
  | SetRainEnabled value => onRainEnabledChange value st
  | SetRainIntensity value => onRainIntensityChange value st
  | AddLight type => state_of (addLight type None st)
  | RemoveLight name => removeLight name st
  | AddObject type => state_of (addObject type st)
  | DeleteObject mesh folder => deleteObject mesh folder st
  end.

Definition run (es : list Event) (st : LightingVisualizer) : LightingVisualizer :=
  fold_left handle es st.

(** The sliders hand over values inside their ranges only. *)
Definition in_range (e : Event) : Prop :=
  match e with
  | SetHour value _ => 0 <= value /\ value <= 24
  | SetSpeed value => 0 <= value /\ value <= 10
  | SetRainIntensity value => 0.1 <= value /\ value <= 3
  | _ => True
  end.

End Visualizer.

(** An oracle for worked examples: eighths, cycling. *)
Definition sample_random (k : N) : Q := inject_Z (Z.of_N (k mod 8)) / 8.

(** ** Vocabulary of the statements *)

(** The events that set the hour instead of advancing it. *)
Definition is_hour_slider (e : Event) : bool :=
  match e with SetHour _ _ => true | _ => false end.

(** What one frame makes of [this.time] at a given speed. *)
Definition frame_time (speed t : Q) : Q :=
  if JS.gtb speed 0 then
    if JS.geb (t + speed * 0.01) 24 then 0 else t + speed * 0.01
  else t.



(** A horizontal coordinate drawn at draw number [k]. *)
Definition spread (rnd : N -> Q) (k : N) : Q := (rnd k - 0.5) * 200.

(** The buffers of the rain, empty while [this.rain] is null. *)
Definition rain_positions (st : LightingVisualizer) : list Q :=
  match rain (weather st) with Some pts => positions pts | None => [] end.

Definition rain_velocities (st : LightingVisualizer) : list Q :=
  match rain (weather st) with Some pts => velocities pts | None => [] end.

Definition multiples_of_3 (l : list nat) : Prop :=
  forall i : nat, i ∈ l -> exists m : nat, i = (3 * m)%nat.

(** Every reference attached to the scene or carried by a folder has been
    handed out by the allocator. *)
Definition refs_allocated (r : Registry) : Prop :=
  (forall o : ref, o ∈ scene r -> (o < next_ref r)%nat) /\
  (forall f : Folder, f ∈ folders (gui r) -> (folder_ref f < next_ref r)%nat).

(** No live light and no folder of the panel carries the name. *)
Definition name_is_free (name : string) (r : Registry) : Prop :=
  (forall s : LightSource, s ∈ lightSources r -> ls_name s ≠ name) /\
  (forall f : Folder, f ∈ folders (gui r) -> folder_name f ≠ name).

(** A small rain for worked examples: two particles, the first about to
    fall through the ground. *)
Definition drizzle : LightingVisualizer :=
  with_weather
    {| rain := Some {| positions := [1; 0.3; 2; 5; 50; 6];
                       velocities := [0.5; 1]; visible := true |};
       isRaining := true; rainIntensity := 1 |} 0%N
    (constructor sample_random RejectDuplicate).

(** ** The nature scene: terrain, creatures, clouds *)

Section Nature.
Import JS.

(** The values [Math.random()] returns, in the order they are drawn, and
    [this.simplex.noise]. *)
Variable Math_random : N -> Q.
Variable noise : Q -> Q -> Q.

(** The height [createTerrain] gives the vertex at [(x, z)]: three layers
    of noise. *)
Definition terrain_height (x z : Q) : Q :=
  let height := noise (x * 0.01) (z * 0.01) * 10 in
  let height := height + noise (x * 0.05) (z * 0.05) * 5 in
  let height := height + noise (x * 0.1) (z * 0.1) * 2 in
  height.

(** The body of the vertex loop of [createTerrain] at index [i].  The
    position array of a geometry holds three numbers per vertex, so the
    loop reads inside the array; a read past the end leaves the array as
    it is here. *)
Definition raise (vertices : list Q) (i : nat) : list Q :=
  match vertices !! i, vertices !! (i + 2)%nat with
  | Some x, Some z => <[(i + 1)%nat := terrain_height x z]> vertices
  | _, _ => vertices
  end.

(** The vertex loop of [createTerrain] over the flat position array. *)
Definition createTerrain_vertices (vertices : list Q) : list Q :=
  fold_left raise (stride3 (length vertices)) vertices.

Inductive AnimalKind : Type := Bird | Frog.

Record Animal := { a_kind : AnimalKind; a_position : Vector3 }.

(** The two loops of [addAnimals]: three draws per bird, two per frog. *)
Fixpoint spawn_birds (n : nat) (k : N) : list Animal * N :=
  match n with
  | O => ([], k)
  | S n' =>
      let bird :=
        {| a_kind := Bird;
           a_position := {| vx := (Math_random k - 0.5) * 80;
                            vy := 10 + Math_random (k + 1) * 10;
                            vz := (Math_random (k + 2) - 0.5) * 80 |} |} in
      let '(rest, k') := spawn_birds n' (k + 3) in
      (bird :: rest, k')
  end.

Fixpoint spawn_frogs (n : nat) (k : N) : list Animal * N :=
  match n with
  | O => ([], k)
  | S n' =>
      let frog :=
        {| a_kind := Frog;
           a_position := {| vx := (Math_random k - 0.5) * 40;
                            vy := 0.3;
                            vz := (Math_random (k + 1) - 0.5) * 40 |} |} in
      let '(rest, k') := spawn_frogs n' (k + 2) in
      (frog :: rest, k')
  end.

(** [addAnimals]: what it appends to [this.animals]. *)
Definition addAnimals (animals : list Animal) (k : N) : list Animal * N :=
  let '(birds, k) := spawn_birds 5 k in
  let '(frogs, k) := spawn_frogs 8 k in
  (animals ++ birds ++ frogs, k).

(** [animateBird]: the position the flight tween is sent to; the draws
    are [randomX], [randomZ], [randomY], in that order. *)
Definition animateBird_target (k : N) : Vector3 * N :=
  let randomX := (Math_random k - 0.5) * 40 in
  let randomZ := (Math_random (k + 1) - 0.5) * 40 in
  let randomY := 10 + Math_random (k + 2) * 10 in
  ({| vx := randomX; vy := randomY; vz := randomZ |}, (k + 3)%N).

(** [Math.floor] of a number, as an array length. *)
Definition Math_floor (q : Q) : Z := Qfloor q.

Record CloudPiece := { p_position : Vector3; p_scale : Q }.

Record Cloud := { cl_pieces : list CloudPiece; cl_position : Vector3; cl_scale : Q }.

(** The inner loop of [addClouds]: four draws per piece. *)
Fixpoint cloud_pieces (n : nat) (k : N) : list CloudPiece * N :=
  match n with
  | O => ([], k)
  | S n' =>
      let piece :=
        {| p_position := {| vx := (Math_random k - 0.5) * 2;
                            vy := (Math_random (k + 1) - 0.5) * 1;
                            vz := (Math_random (k + 2) - 0.5) * 2 |};
           p_scale := 0.5 + Math_random (k + 3) * 0.5 |} in
      let '(rest, k') := cloud_pieces n' (k + 4) in
      (piece :: rest, k')
  end.

(** The outer loop of [addClouds]. *)
Fixpoint spawn_clouds (n : nat) (k : N) : list Cloud * N :=
  match n with
  | O => ([], k)
  | S n' =>
      let cloudPieces := Z.to_nat (5 + Math_floor (Math_random k * 5)) in
      let '(pieces, k) := cloud_pieces cloudPieces (k + 1) in
      let cloud :=
        {| cl_pieces := pieces;
           cl_position := {| vx := (Math_random k - 0.5) * 200;
                             vy := 30 + Math_random (k + 1) * 20;
                             vz := (Math_random (k + 2) - 0.5) * 200 |};
           cl_scale := 5 + Math_random (k + 3) * 5 |} in
      let '(rest, k') := spawn_clouds n' (k + 4) in
      (cloud :: rest, k')
  end.

Definition cloudCount : nat := 10.

(** [addClouds]: the clouds created, and the scene with their horizontal
    positions appended to [this.clouds]. *)
Definition addClouds (n : NatureScene) (k : N) : list Cloud * NatureScene * N :=
  let '(cs, k) := spawn_clouds cloudCount k in
  (cs,
   {| dayTime := dayTime n;
      clouds := clouds n ++ List.map (fun c => vx (cl_position c)) cs;
      windSpeed := windSpeed n; skyColor := skyColor n |},
   k).

(** [update] called once for each reading of the scene's clock. *)
Definition NatureScene_updates (deltas : list Q) (n : NatureScene) : NatureScene :=
  fold_left (fun n delta => NatureScene_update delta n) deltas n.

End Nature.

(** ** Vocabulary of the further statements *)

Section FurtherVocabulary.
Variable Math_random : N -> Q.

(** The delete button of an object exists while its folder is in the
    panel; it is bound to the mesh and to the folder created right after
    it. *)
Definition offered (st : LightingVisualizer) (e : Event) : bool :=
  match e with
  | DeleteObject mesh folder =>
      existsb (Nat.eqb mesh) (objects (registry st))
      && Nat.eqb folder (S mesh)
      && existsb (fun f => Nat.eqb (folder_ref f) folder) (folders (gui (registry st)))
  | _ => true
  end.

(** Every event of the sequence is one the panel offers when it occurs. *)
Fixpoint offered_all (es : list Event) (st : LightingVisualizer) : bool :=
  match es with
  | [] => true
  | e :: es' => offered st e && offered_all es' (handle Math_random st e)
  end.

End FurtherVocabulary.

Definition is_light (o : option Obj) : Prop :=
  match o with Some (LightObj _ _ _ _ _) => True | _ => False end.

Definition is_helper_of (light : ref) (o : option Obj) : Prop :=
  match o with Some (HelperObj l) => l = light | _ => False end.

Definition is_mesh (o : option Obj) : Prop :=
  match o with Some (MeshObj _ _ _) => True | _ => False end.

(** The registry agrees with the scene and the panel: every listed object
    is a mesh attached to the scene; every live light is attached with the
    helper and the folder created right after it; no light and no mesh is
    listed twice; every stored object sits below the allocator. *)
Record registry_consistent (r : Registry) : Prop := {
  objects_attached :
    forall m : ref, m ∈ objects r -> m ∈ scene r /\ is_mesh (heap r !! m);
  objects_distinct : NoDup (objects r);
  lights_attached :
    forall s : LightSource, s ∈ lightSources r ->
      ls_helper s = Some (S (ls_light s)) /\
      ls_folder s = Some (S (S (ls_light s))) /\
      ls_light s ∈ scene r /\ S (ls_light s) ∈ scene r /\
      (exists f : Folder, f ∈ folders (gui r) /\ folder_ref f = S (S (ls_light s))) /\
      is_light (heap r !! ls_light s) /\
      is_helper_of (ls_light s) (heap r !! S (ls_light s));
  lights_distinct : NoDup (ls_light <$> lightSources r);
  heap_allocated :
    forall (k : ref) (o : Obj), heap r !! k = Some o -> (k < next_ref r)%nat
}.

(** A registered light as [addLight] writes it: one of the three kinds the
    switch knows, white, intensity 5, named after its kind and a number. *)
Definition entry_as_created (s : LightSource) : Prop :=
  is_light_type (ls_type s) = true /\
  ls_color s = 0xffffff%N /\ ls_intensity s = 5 /\
  exists n : nat, (1 <= n)%nat /\
    ls_name s = ls_type s +:+ " Light " +:+ pretty n +:+ " (edit or remove)".

(** Every horizontal slot (indices [3 * j] and [3 * j + 2]) of a position
    buffer holds a value in [-100,100]. *)
Definition horizontals_in_range (ps : list Q) : Prop :=
  forall (j : nat) (x : Q),
    ps !! (3 * j)%nat = Some x \/ ps !! (3 * j + 2)%nat = Some x ->
    -100 <= x /\ x <= 100.

(** The rain, once created, is shown exactly while it is advanced. *)
Definition rain_shown_while_raining (w : Weather) : Prop :=
  match rain w with
  | Some pts => visible pts = isRaining w
  | None => True
  end.

(** Componentwise equality of colours. *)
Definition HSL_eq (a b : HSL) : Prop :=
  hue a == hue b /\ saturation a == saturation b /\ lightness a == lightness b.

(** A position inside an axis-aligned box. *)
Definition in_box (lo hi : Vector3) (v : Vector3) : Prop :=
  (vx lo <= vx v /\ vx v <= vx hi) /\
  (vy lo <= vy v /\ vy v <= vy hi) /\
  (vz lo <= vz v /\ vz v <= vz hi).

(** A piece of a cloud as [addClouds] places it inside its group. *)
Definition piece_ok (p : CloudPiece) : Prop :=
  in_box {| vx := -1; vy := -0.5; vz := -1 |} {| vx := 1; vy := 0.5; vz := 1 |}
    (p_position p) /\
  0.5 <= p_scale p /\ p_scale p < 1.

(** A cloud as [addClouds] places it: five to nine pieces, over the
    terrain, between 30 and 50 high, scaled by 5 up to 10. *)
Definition cloud_ok (c : Cloud) : Prop :=
  (5 <= length (cl_pieces c) <= 9)%nat /\
  Forall piece_ok (cl_pieces c) /\
  in_box {| vx := -100; vy := 30; vz := -100 |} {| vx := 100; vy := 50; vz := 100 |}
    (cl_position c) /\
  5 <= cl_scale c /\ cl_scale c < 10.

(** Where [addAnimals] puts birds and frogs: opposite corners. *)
Definition bird_volume : Vector3 * Vector3 :=
  ({| vx := -40; vy := 10; vz := -40 |}, {| vx := 40; vy := 20; vz := 40 |}).

Definition frog_area : Vector3 * Vector3 :=
  ({| vx := -20; vy := 0.3; vz := -20 |}, {| vx := 20; vy := 0.3; vz := 20 |}).

(** A position over the terrain, whose plane spans [-100,100]. *)
Definition over_terrain (x : Q) : Prop := -100 <= x /\ x <= 100.

(** * Properties *)

(** ** Comparisons and remainders *)

Lemma Qle_bool_false (x y : Q) : Qle_bool x y = false <-> y < x.
Proof.
  split.
  - intros E. apply Qnot_le_lt. intros L. apply Qle_bool_iff in L. congruence.
  - intros L. destruct (Qle_bool x y) eqn:E; [|reflexivity].
    apply Qle_bool_iff in E. lra.
Qed.

(** Split on every comparison the goal still tests. *)
Ltac cmp_cases :=
  repeat match goal with
  | |- context [Qle_bool ?a ?b] =>
      let E := fresh "E" in
      destruct (Qle_bool a b) eqn:E;
      [apply Qle_bool_iff in E | apply Qle_bool_false in E]
  end;
  cbn [andb negb orb].

(** Turn divisions by literals into multiplications. *)
Ltac inv_const :=
  unfold Qdiv in *;
  repeat match goal with
  | |- context [Qinv ?c] =>
      let v := eval vm_compute in (Qinv c) in change (Qinv c) with v
  end.

Ltac unfold_js :=
  unfold JS.gtb in *;
  unfold JS.geb, JS.ltb, JS.Math_max, JS.Math_min, JS.Math_abs in *.

Lemma rem_small (t : Q) : 0 <= t -> t < 24 -> JS.rem t 24 == t.
Proof.
  intros H0 H1. unfold JS.rem.
  assert (E : JS.trunc (t / 24) = 0%Z).
  { destruct t as [n d]. unfold JS.trunc, Qle, Qlt in *. simpl in *.
    apply Z.quot_small. lia. }
  rewrite E. change (inject_Z 0) with 0. lra.
Qed.

Lemma sample_random_range (k : N) : 0 <= sample_random k /\ sample_random k < 1.
Proof.
  unfold sample_random.
  assert (H : (0 <= Z.of_N (k mod 8) < 8)%Z).
  { assert (H : (k mod 8 < 8)%N) by (apply N.mod_upper_bound; discriminate).
    revert H. generalize (k mod 8)%N. intros m H. lia. }
  destruct H as [H0 H8]. unfold Qdiv. change (/ 8) with (1 # 8).
  split.
  - unfold Qle. simpl. lia.
  - unfold Qlt. simpl. lia.
Qed.

(** ** Time of day *)

Lemma updateTimeOfDay_celestial (st : LightingVisualizer) :
  celestial (updateTimeOfDay st) =
  let hour := JS.rem (time st) 24 in
  {| isDay := isDayAt hour; sunVisible := isDayAt hour;
     moonVisible := negb (isDayAt hour); starsVisible := negb (isDayAt hour);
     starsOpacity := starOpacityAt hour;
     sunLightIntensity := sunIntensityAt hour;
     ambientIntensity := if isDayAt hour then 0.3 else 0.15;
     background := skyColorAt hour |}.
Proof. reflexivity. Qed.

Lemma updateTimeOfDay_clock (st : LightingVisualizer) :
  clock (updateTimeOfDay st) = clock st.
Proof. reflexivity. Qed.

Ltac unfold_tod :=
  unfold starOpacityAt, sunIntensityAt, skyColorAt, isDayAt,
    twilightStart, twilightEnd, dawnStart, dawnEnd in *;
  unfold_js;
  change (20 - 18) with 2 in *; change (6 - 4) with 2 in *.

(** The un-scaled fade factor stays in the unit interval; what is stored is
    1.2 times it. *)
Lemma starOpacityAt_range (h : Q) : 0 <= starOpacityAt h /\ starOpacityAt h <= 1.2.
Proof. unfold_tod. cmp_cases; inv_const; lra. Qed.

(** The star opacity has no jump anywhere: it moves by at most 0.6 per
    hour, the slope of its two ramps. *)
Lemma starOpacityAt_lipschitz (h1 h2 : Q) :
  h1 <= h2 ->
  - (0.6 * (h2 - h1)) <= starOpacityAt h2 - starOpacityAt h1 /\
  starOpacityAt h2 - starOpacityAt h1 <= 0.6 * (h2 - h1).
Proof. intros Hle. unfold_tod. cmp_cases; inv_const; lra. Qed.

(** Daylight intensity: in range, highest at noon, linear in the distance
    from noon. *)
Lemma sunIntensityAt_range (h : Q) : 0 <= sunIntensityAt h /\ sunIntensityAt h <= 5.
Proof.
  unfold_tod. cmp_cases.
  all: split; [apply Q.le_max_l | apply Q.max_lub; [lra|] ].
  all: inv_const.
  all: first [ pose proof (Qabs_nonneg (h - 12)); lra
             | pose proof (Qabs_nonneg (h - 0)); lra ].
Qed.

Lemma sunIntensityAt_noon : sunIntensityAt 12 == 5.
Proof. vm_compute. reflexivity. Qed.

Lemma sunIntensityAt_day (h : Q) :
  6 <= h -> h < 18 -> sunIntensityAt h == 5 - Qabs (h - 12) / 6 * 4.
Proof.
  intros H6 H18. unfold_tod. cmp_cases; try lra.
  apply Q.max_r. inv_const.
  assert (Qabs (h - 12) <= 6) by (apply Qabs_Qle_condition; split; lra).
  lra.
Qed.

Lemma sunIntensityAt_night (h : Q) :
  0 <= h -> h < 6 \/ 18 <= h -> sunIntensityAt h == Qmax 0 (1 - h / 6).
Proof.
  intros H0 Hn. unfold_tod.
  assert (E : Qabs (h - 0) == h) by (rewrite Qabs_pos; lra).
  cmp_cases; try lra; rewrite E; reflexivity.
Qed.

(** From sunset to midnight the night branch gives no light at all. *)
Lemma sunIntensityAt_evening (h : Q) : 18 <= h -> sunIntensityAt h == 0.
Proof.
  intros H18. rewrite sunIntensityAt_night by (lra || (right; assumption)).
  apply Q.max_l. inv_const. lra.
Qed.

(** The sky lightness is continuous at sunrise. *)
Lemma sky_lightness_dawn (eps : Q) :
  0 <= eps -> eps <= 2 ->
  lightness (skyColorAt (6 + eps)) - lightness (skyColorAt (6 - eps))
  == 0.325 * eps.
Proof.
  intros H0 H2. unfold_tod. cmp_cases; cbn [lightness]; inv_const; lra.
Qed.

(** It is not at sunset: the gap stays above 0.6 however close to 18 the
    two samples are taken. *)
Lemma sky_lightness_dusk_gap (eps : Q) :
  0 < eps -> eps <= 2 ->
  0.6 <= lightness (skyColorAt (18 - eps)) - lightness (skyColorAt (18 + eps)).
Proof.
  intros H0 H2. unfold_tod. cmp_cases; cbn [lightness]; try lra.
  all: inv_const.
  all: match goal with
       | |- context [Qmin 1 (Qmax 0 ?x)] =>
           assert (Qmin 1 (Qmax 0 x) <= 1) by apply Q.le_min_l
       end; lra.
Qed.

(** At the start of dawn the lightness is continuous and the saturation
    steps from 0.8 to 0.9. *)
Lemma sky_saturation_dawn_start :
  saturation (skyColorAt 3.999) == 0.8 /\ saturation (skyColorAt 4) == 0.9 /\
  lightness (skyColorAt 3.999) == 0.05 /\ lightness (skyColorAt 4) == 0.05.
Proof. repeat split; vm_compute; reflexivity. Qed.

(** C8 (as amended).  At every hour of the day the opacity written to the
    star material lies between 0 and 1.2: it is 0 by day, climbs linearly
    from 0 to 1.2 over dusk, is exactly 1.2 in full night, and falls back
    linearly over dawn. *)
Theorem star_opacity_bounds (st : LightingVisualizer) :
  0 <= time st -> time st < 24 ->
  let h := time st in
  let o := starsOpacity (celestial (updateTimeOfDay st)) in
  (0 <= o /\ o <= 1.2) /\
  (6 <= h /\ h < 18 -> o == 0) /\
  (18 <= h /\ h < 20 -> o == (h - 18) / 2 * 1.2) /\
  (20 <= h \/ h < 4 -> o == 1.2) /\
  (4 <= h /\ h < 6 -> o == (1 - (h - 4) / 2) * 1.2).
Proof.
  intros H0 H24. cbv zeta. rewrite updateTimeOfDay_celestial.
  cbn [starsOpacity]. pose proof (rem_small _ H0 H24) as Hh.
  revert Hh. generalize (JS.rem (time st) 24). intros hr Hh.
  revert H0 H24 Hh. generalize (time st). intros h H0 H24 Hh.
  split; [apply starOpacityAt_range|].
  unfold_tod.
  repeat split; intros Hc; cmp_cases; inv_const; lra.
Qed.

Lemma star_opacity_bounds_witness :
  starsOpacity (celestial (updateTimeOfDay (onHourChange 19 0
     (constructor sample_random RejectDuplicate)))) == 0.6.
Proof.
  pose proof (star_opacity_bounds
    (onHourChange 19 0 (constructor sample_random RejectDuplicate))) as H.
  assert (H0 : 0 <= time (onHourChange 19 0 (constructor sample_random RejectDuplicate)))
    by (vm_compute; discriminate).
  assert (H1 : time (onHourChange 19 0 (constructor sample_random RejectDuplicate)) < 24)
    by (vm_compute; reflexivity).
  destruct (H H0 H1) as (_ & _ & Hdusk & _).
  rewrite Hdusk; [vm_compute; reflexivity|].
  split; [vm_compute; discriminate | vm_compute; reflexivity].
Defined.

(** C8 (as stated) fails in the state the constructor leaves: at hour 0 the
    star opacity is 1.2, above 1. *)
Lemma star_opacity_exceeds_one :
  let st := constructor sample_random RejectDuplicate in
  time st == 0 /\ starsOpacity (celestial st) == 1.2 /\
  ~ starsOpacity (celestial st) <= 1.
Proof.
  cbv zeta. split; [vm_compute; reflexivity|].
  split; [vm_compute; reflexivity|].
  vm_compute. intros H. apply H. reflexivity.
Qed.

(** C4.  One hour before midnight the directional light is dark, one hour
    after midnight it is at 5/6: the night branch measures the distance
    from hour 0 along the line, not around the clock. *)
Theorem night_intensity_not_circular (st : LightingVisualizer) :
  sunLightIntensity (celestial (onHourChange 23 0 st)) == 0 /\
  sunLightIntensity (celestial (onHourChange 1 0 st)) == 5 / 6 /\
  sunLightIntensity (celestial (onHourChange 23.99 0 st)) == 0 /\
  sunLightIntensity (celestial (onHourChange 0 0 st)) == 1.
Proof. repeat split; vm_compute; reflexivity. Qed.

(** C5.  Across sunset the sky does not blend: a thousandth of an hour
    before 18 the lightness of the background and of the sky dome is 0.7,
    a thousandth after it is about 0.05; the saturation steps too. *)
Theorem sky_jumps_at_dusk (st : LightingVisualizer) :
  let before := onHourChange 17.999 0 st in
  let after := onHourChange 18.001 0 st in
  lightness (background (celestial before)) == 0.7 /\
  lightness (background (celestial after)) == 0.050025 /\
  saturation (background (celestial before)) == 0.9 /\
  saturation (background (celestial after)) == 0.8 /\
  lightness (skyColor (natureScene before)) == 0.7 /\
  lightness (skyColor (natureScene after)) <= 0.06 /\
  starsOpacity (celestial after) - starsOpacity (celestial before) == 0.0006.
Proof. repeat split; vm_compute; try reflexivity; discriminate. Qed.

(** ** The clock *)

Section ClockProperties.
Variable Math_random : N -> Q.

Lemma updateRain_clock (st : LightingVisualizer) :
  clock (updateRain Math_random st) = clock st.
Proof.
  unfold updateRain. destruct (rain (weather st)) as [pts|]; [|reflexivity].
  destruct (isRaining (weather st)); [|reflexivity].
  destruct (fold_left _ _ _) as [ps k]. reflexivity.
Qed.

Lemma animate_clock (d d' : Q) (st : LightingVisualizer) :
  clock (animate Math_random d d' st) =
  {| c_time := frame_time (timeSpeed st) (time st);
     c_timeSpeed := timeSpeed st; c_isPlaying := isPlaying st |}.
Proof.
  unfold animate, frame_time. cbn [clock with_nature].
  rewrite updateRain_clock.
  destruct (JS.gtb (timeSpeed st) 0); [reflexivity|].
  unfold time, timeSpeed, isPlaying. destruct (clock st). reflexivity.
Qed.

Lemma animate_time (d d' : Q) (st : LightingVisualizer) :
  time (animate Math_random d d' st) = frame_time (timeSpeed st) (time st).
Proof. unfold time at 1. rewrite animate_clock. reflexivity. Qed.

Lemma animate_timeSpeed (d d' : Q) (st : LightingVisualizer) :
  timeSpeed (animate Math_random d d' st) = timeSpeed st.
Proof. unfold timeSpeed at 1. rewrite animate_clock. reflexivity. Qed.

Lemma frame_time_range (speed t : Q) :
  0 <= t -> t < 24 -> 0 <= frame_time speed t /\ frame_time speed t < 24.
Proof. intros H0 H24. unfold frame_time. unfold_js. cmp_cases; lra. Qed.

Lemma frame_time_step (speed t : Q) :
  0 < speed -> t + speed * 0.01 < 24 -> frame_time speed t == t + speed * 0.01.
Proof. intros Hs Ht. unfold frame_time. unfold_js. cmp_cases; lra. Qed.

Lemma frame_time_reset (speed t : Q) :
  0 < speed -> 24 <= t + speed * 0.01 -> frame_time speed t == 0.
Proof. intros Hs Ht. unfold frame_time. unfold_js. cmp_cases; lra. Qed.

Lemma frame_time_still (speed t : Q) : speed <= 0 -> frame_time speed t = t.
Proof.
  intros Hs. unfold frame_time. unfold_js.
  destruct (Qle_bool speed 0) eqn:E; [reflexivity|].
  apply Qle_bool_false in E. lra.
Qed.

(** Every event but the hour slider leaves the hour alone or advances it
    by one frame. *)
Lemma handle_time (st : LightingVisualizer) (e : Event) :
  is_hour_slider e = false ->
  time (handle Math_random st e) = time st \/
  time (handle Math_random st e) = frame_time (timeSpeed st) (time st).
Proof.
  intros He. destruct e; try discriminate; cbn [handle].
  - right. apply animate_time.
  - left. reflexivity.
  - left. reflexivity.
  - left. unfold onRainEnabledChange.
    destruct (rain (weather st)); [|reflexivity].
    destruct (if value then _ else _). reflexivity.
  - left. reflexivity.
  - left. unfold addLight. destruct (Registry_addLight _ _ _); reflexivity.
  - left. reflexivity.
  - left. unfold addObject. destruct (Registry_addObject _ _ _ _); reflexivity.
  - left. reflexivity.
Qed.

Lemma run_time_range (es : list Event) (st : LightingVisualizer) :
  forallb (fun e => negb (is_hour_slider e)) es = true ->
  0 <= time st -> time st < 24 ->
  0 <= time (run Math_random es st) /\ time (run Math_random es st) < 24.
Proof.
  revert st. induction es as [|e es IH]; intros st Hes H0 H24.
  - split; assumption.
  - cbn [forallb] in Hes. apply andb_prop in Hes as [He Hes].
    apply negb_true_iff in He.
    change (run Math_random (e :: es) st)
      with (run Math_random es (handle Math_random st e)).
    destruct (handle_time st e He) as [E|E].
    + apply IH; [assumption | rewrite E; assumption | rewrite E; assumption].
    + pose proof (frame_time_range (timeSpeed st) (time st) H0 H24) as [Ha Hb].
      apply IH; [assumption | rewrite E; assumption | rewrite E; assumption].
Qed.

Lemma run_frames (n : nat) (d d' : Q) (st : LightingVisualizer) :
  time (run Math_random (repeat (Frame d d') n) st) =
  Nat.iter n (frame_time (timeSpeed st)) (time st).
Proof.
  revert st. induction n as [|n IH]; intros st; [reflexivity|].
  change (run Math_random (repeat (Frame d d') (S n)) st)
    with (run Math_random (repeat (Frame d d') n) (animate Math_random d d' st)).
  rewrite IH, animate_time, animate_timeSpeed, Nat.iter_succ_r. reflexivity.
Qed.

(** C3 (as amended).  From an hour in [0,24), frames interleaved with any
    panel action other than the hour slider keep the hour in [0,24); a
    frame that would reach 24 or more sets the hour to exactly 0, dropping
    the overshoot; at speed 1 a hundred frames take hour 23.5 to 0.5. *)
Theorem clock_resets_at_24 (st : LightingVisualizer) (es : list Event) (d d' : Q) :
  0 <= time st -> time st < 24 ->
  forallb (fun e => negb (is_hour_slider e)) es = true ->
  (0 <= time (run Math_random es st) /\ time (run Math_random es st) < 24) /\
  (0 < timeSpeed st -> 24 <= time st + timeSpeed st * 0.01 ->
   time (animate Math_random d d' st) == 0) /\
  (time st = 23.5 -> timeSpeed st = 1 ->
   time (run Math_random (repeat (Frame d d') 100) st) == 0.5).
Proof.
  intros H0 H24 Hes. split; [apply run_time_range; assumption|]. split.
  - intros Hs Ht. rewrite animate_time. apply frame_time_reset; assumption.
  - intros Et Es. rewrite run_frames, Et, Es. vm_compute. reflexivity.
Qed.

(** C7 (as amended).  A frame moves the hour by [speed * 0.01] whatever
    time has elapsed, to 0 when that reaches 24; it leaves the hour alone
    exactly when the speed is not positive. *)
Theorem frame_advance_is_per_frame (st : LightingVisualizer) (d d' : Q) :
  (0 < timeSpeed st -> time st + timeSpeed st * 0.01 < 24 ->
   time (animate Math_random d d' st) == time st + timeSpeed st * 0.01) /\
  (0 < timeSpeed st -> 24 <= time st + timeSpeed st * 0.01 ->
   time (animate Math_random d d' st) == 0) /\
  (timeSpeed st <= 0 -> time (animate Math_random d d' st) = time st) /\
  (forall e e' : Q,
     time (animate Math_random e e' st) = time (animate Math_random d d' st)).
Proof.
  repeat split.
  - intros Hs Ht. rewrite animate_time. apply frame_time_step; assumption.
  - intros Hs Ht. rewrite animate_time. apply frame_time_reset; assumption.
  - intros Hs. rewrite animate_time. apply frame_time_still; assumption.
  - intros e e'. rewrite !animate_time. reflexivity.
Qed.

Lemma clock_advances_iff (st : LightingVisualizer) (d d' : Q) :
  0 <= time st -> timeSpeed st <= 10 ->
  (~ time (animate Math_random d d' st) == time st) <-> 0 < timeSpeed st.
Proof.
  intros H0 H10. rewrite animate_time. unfold frame_time. unfold_js.
  cmp_cases; split; intros H; lra.
Qed.

(** C9.  The play switch writes the speed: off stores 0, on stores exactly
    1, whatever the speed slider held, and it touches nothing else.  From
    then on a frame moves the hour if and only if the stored speed is
    positive; the playing flag itself is not consulted, so a positive
    speed set while paused makes the clock run. *)
Theorem play_toggle_overwrites_speed
  (st : LightingVisualizer) (value : bool) (d d' : Q) (v : Q) :
  0 <= time st -> 0 < v -> v <= 10 ->
  let st' := onPlayChange value st in
  isPlaying st' = value /\
  timeSpeed st' = (if value then 1 else 0) /\
  time st' = time st /\
  registry st' = registry st /\ celestial st' = celestial st /\
  weather st' = weather st /\ natureScene st' = natureScene st /\
  ((~ time (animate Math_random d d' st') == time st') <-> 0 < timeSpeed st') /\
  ((~ time (animate Math_random d d' st') == time st') <-> value = true) /\
  (let paused := onSpeedChange v (onPlayChange false st) in
   isPlaying paused = false /\
   ~ time (animate Math_random d d' paused) == time paused).
Proof.
  intros H0 Hv Hv10 st'. subst st'.
  repeat split; try reflexivity.
  - apply clock_advances_iff; [assumption|].
    cbn. destruct value; lra.
  - apply clock_advances_iff; [assumption|].
    cbn. destruct value; lra.
  - intros H. apply clock_advances_iff in H; [|assumption|cbn; destruct value; lra].
    cbn in H. destruct value; [reflexivity|lra].
  - intros ->. apply clock_advances_iff; [assumption|cbn; lra|cbn; lra].
  - apply clock_advances_iff; [assumption|cbn; lra|cbn; lra].
Qed.

End ClockProperties.

(** ** Rain *)

Section RainProperties.
Variable Math_random : N -> Q.
Hypothesis random_range : forall k : N, 0 <= Math_random k /\ Math_random k < 1.

Lemma spread_range (k : N) : -100 <= spread Math_random k /\ spread Math_random k <= 100.
Proof. unfold spread. destruct (random_range k). split; lra. Qed.



Lemma fall_spec (I : Q) (vel ps : list Q) (k : N) (i : nat) :
  fall Math_random I vel (ps, k) i =
  match ps !! (i + 1)%nat, vel !! (i / 3)%nat with
  | Some y, Some v =>
      if JS.ltb (y - v * I) 0 then
        (<[(i + 2)%nat := spread Math_random (k + 1)]>
           (<[i := spread Math_random k]> (<[(i + 1)%nat := 100]> ps)), (k + 2)%N)
      else (<[(i + 1)%nat := y - v * I]> ps, k)
  | _, _ => (ps, k)
  end.
Proof.
  unfold fall, spread. destruct (ps !! (i + 1)%nat); [|reflexivity].
  destruct (vel !! (i / 3)%nat); [|reflexivity].
  rewrite list_insert_insert_eq. reflexivity.
Qed.



Lemma fall_draws (I : Q) (vel ps : list Q) (k : N) (i : nat) :
  (k <= (fall Math_random I vel (ps, k) i).2)%N.
Proof.
  rewrite fall_spec. destruct (ps !! (i + 1)%nat); [|cbn; lia].
  destruct (vel !! (i / 3)%nat); [|cbn; lia].
  destruct (JS.ltb _ _); cbn [snd]; lia.
Qed.


Lemma stride3_multiples (len : nat) : multiples_of_3 (stride3 len).
Proof.
  intros i Hi. unfold stride3 in Hi. apply list_elem_of_fmap in Hi as (m & -> & _).
  exists m. reflexivity.
Qed.

Lemma stride3_NoDup (len : nat) : NoDup (stride3 len).
Proof.
  unfold stride3. apply NoDup_fmap_2; [|apply NoDup_seq].
  intros a b Hab. lia.
Qed.

Lemma stride3_elem (len j : nat) : (3 * j < len)%nat -> (3 * j)%nat ∈ stride3 len.
Proof.
  intros Hj. unfold stride3. apply list_elem_of_fmap. exists j. split; [reflexivity|].
  apply elem_of_seq. split; [lia|]. cbn [Nat.add].
  apply (Nat.div_le_lower_bound (len + 2) 3 (S j)); lia.
Qed.


Lemma fold_fall_draws (I : Q) (vel : list Q) (l : list nat) (ps : list Q) (k : N) :
  (k <= (fold_left (fall Math_random I vel) l (ps, k)).2)%N.
Proof.
  revert ps k. induction l as [|i l IH]; intros ps k; [cbn; lia|].
  cbn [fold_left]. destruct (fall Math_random I vel (ps, k) i) as [ps1 k1] eqn:E.
  pose proof (fall_draws I vel ps k i) as H. rewrite E in H. cbn [snd] in H.
  specialize (IH ps1 k1). lia.
Qed.







Lemma animate_weather (d d' : Q) (st : LightingVisualizer) :
  weather (animate Math_random d d' st) = weather (updateRain Math_random st).
Proof.
  unfold animate. cbn [weather with_nature].
  destruct (JS.gtb (timeSpeed st) 0); [|reflexivity].
  unfold updateRain.
  cbn [weather draws with_nature updateTimeOfDay with_celestial with_clock].
  destruct (rain (weather st)) as [pts|]; [|reflexivity].
  destruct (isRaining (weather st)); [|reflexivity].
  destruct (fold_left _ _ _) as [ps k]. reflexivity.
Qed.




Lemma addObject_weather (type : string) (st : LightingVisualizer) :
  weather (state_of (addObject Math_random type st)) = weather st.
Proof. unfold addObject. destruct (Registry_addObject _ _ _ _); reflexivity. Qed.

Lemma updateTimeOfDay_weather (st : LightingVisualizer) :
  weather (updateTimeOfDay st) = weather st.
Proof. reflexivity. Qed.

Lemma with_clock_weather (c : Clock) (st : LightingVisualizer) :
  weather (with_clock c st) = weather st.
Proof. reflexivity. Qed.







End RainProperties.

(** ** Registry of lights and objects *)

(** Decide a membership in a computed set or list. *)
Ltac is_member := refine (bool_decide_unpack _ _); vm_compute; exact I.
Ltac is_absent := refine (bool_decide_eq_false_1 _ _); vm_compute; reflexivity.

(** C10.  [deleteObject] takes out the mesh and the folder it is handed,
    by reference, and nothing else: any other object stays in the scene
    and in the object list, any other folder stays in the panel whatever
    its name, and the stored objects (materials included) and the lights
    are untouched. *)
Theorem deleteObject_removes_only_its_mesh
  (st : LightingVisualizer) (mesh folder : ref) (o : ref) (f : Folder) :
  o ≠ mesh -> folder_ref f ≠ folder ->
  let r := registry st in
  let r' := registry (deleteObject mesh folder st) in
  (mesh ∉ scene r') /\ (mesh ∉ objects r') /\
  (forall g : Folder, g ∈ folders (gui r') -> folder_ref g ≠ folder) /\
  (o ∈ scene r' <-> o ∈ scene r) /\
  (o ∈ objects r' <-> o ∈ objects r) /\
  objects r' = filter (fun x => x ≠ mesh) (objects r) /\
  (f ∈ folders (gui r') <-> f ∈ folders (gui r)) /\
  heap r' = heap r /\ lightSources r' = lightSources r.
Proof.
  intros Ho Hf r r'. subst r r'.
  cbn [deleteObject with_registry registry Registry_deleteObject playSound
       scene_remove set_objects set_gui scene objects gui heap lightSources
       removeFolder folders].
  split.
  { rewrite elem_of_difference, elem_of_singleton. intros [_ H]. apply H. reflexivity. }
  split.
  { rewrite list_elem_of_filter. intros [H _]. apply H. reflexivity. }
  split.
  { intros g Hg. apply list_elem_of_filter in Hg as [Hg _]. exact Hg. }
  split.
  { rewrite elem_of_difference, elem_of_singleton. split; [intros [H _]; exact H|].
    intros H. split; assumption. }
  split.
  { rewrite list_elem_of_filter. split; [intros [_ H]; exact H|].
    intros H. split; assumption. }
  split; [reflexivity|]. split.
  { rewrite list_elem_of_filter. split; [intros [_ H]; exact H|].
    intros H. split; assumption. }
  split; reflexivity.
Qed.

Lemma find_last (P : LightSource -> bool) (l : list LightSource) (x : LightSource) :
  (forall s : LightSource, s ∈ l -> P s = false) -> P x = true ->
  List.find P (l ++ [x]) = Some x.
Proof.
  intros Hl Hx. induction l as [|a l IH]; cbn.
  - rewrite Hx. reflexivity.
  - rewrite (Hl a) by left. apply IH. intros s Hs. apply Hl. right. assumption.
Qed.

Lemma filter_last {A : Type} (P : A -> Prop) `{!forall a, Decision (P a)}
  (l : list A) (x : A) :
  (forall a : A, a ∈ l -> P a) -> ~ P x -> filter P (l ++ [x]) = l.
Proof.
  intros Hl Hx. rewrite filter_app, filter_cons_False, filter_nil, app_nil_r by assumption.
  induction l as [|a l IH]; [reflexivity|].
  rewrite filter_cons_True by (apply Hl; left).
  f_equal. apply IH. intros b Hb. apply Hl. right. assumption.
Qed.

Lemma has_folder_named_false (name : string) (g : GUI) :
  (forall f : Folder, f ∈ folders g -> folder_name f ≠ name) ->
  has_folder_named name g = false.
Proof.
  intros H. unfold has_folder_named. induction (folders g) as [|f l IH]; [reflexivity|].
  cbn. destruct (String.eqb_spec (folder_name f) name) as [E|E].
  - exfalso. apply (H f); [left|assumption].
  - apply IH. intros f' Hf'. apply H. right. assumption.
Qed.

Lemma addFolder_free (name : string) (f : ref) (g : GUI) :
  (forall x : Folder, x ∈ folders g -> folder_name x ≠ name) ->
  addFolder name f g =
  Some {| policy := policy g;
          folders := folders g ++ [{| folder_ref := f; folder_name := name |}] |}.
Proof.
  intros H. unfold addFolder. rewrite has_folder_named_false by assumption.
  destruct (policy g); reflexivity.
Qed.

(** Where the generated name is free, creating a light and removing it by
    that name gives back the scene, the panel and the list of lights. *)
Lemma light_roundtrip_when_name_is_free
  (type : string) (position : option Vector3) (r : Registry) :
  is_light_type type = true -> refs_allocated r -> name_is_free (light_name type r) r ->
  let r' := Registry_removeLight (light_name type r)
              (state_of (Registry_addLight type position r)) in
  scene r' = scene r /\ gui r' = gui r /\
  lightSources r' = lightSources r /\ objects r' = objects r.
Proof.
  intros Ht [Hscene Hfolders] [Hfree_l Hfree_f]. cbv zeta.
  unfold Registry_addLight. rewrite Ht.
  cbn [alloc fresh scene_add set_gui gui next_ref scene heap objects lightSources sounds].
  rewrite addFolder_free by assumption.
  cbn [state_of]. unfold Registry_removeLight.
  cbn [playSound set_lightSources set_gui lightSources].
  rewrite find_last.
  - cbn [ls_light ls_helper ls_folder scene_remove set_gui set_lightSources playSound
         scene gui objects lightSources removeFolder folders policy].
    split; [|split; [|split; [|reflexivity]]].
    + apply set_eq. intros o. specialize (Hscene o).
      rewrite !elem_of_difference, !elem_of_union, !elem_of_singleton. split.
      * intros [[[E|[E|H]] H1] H2]; [contradiction | contradiction | assumption].
      * intros H. specialize (Hscene H). split; [split; [auto|lia]|lia].
    + destruct (gui r) as [pol fs]. cbn [policy folders] in *.
      unfold removeFolder. cbn [policy folders]. f_equal.
      apply filter_last.
      * intros f Hf. specialize (Hfolders f Hf). lia.
      * cbn. intros H. apply H. reflexivity.
    + apply filter_last.
      * assumption.
      * cbn. intros H. apply H. reflexivity.
  - intros s Hs. apply String.eqb_neq. apply Hfree_l. assumption.
  - cbn. apply String.eqb_refl.
Qed.

Lemma allocated_grow (r r' : Registry) :
  refs_allocated r ->
  (next_ref r <= next_ref r')%nat ->
  (forall o : ref, o ∈ scene r' -> o ∈ scene r \/ (o < next_ref r')%nat) ->
  (forall f : Folder, f ∈ folders (gui r') ->
     f ∈ folders (gui r) \/ (folder_ref f < next_ref r')%nat) ->
  refs_allocated r'.
Proof.
  intros [Hs Hf] Hn Hs' Hf'. split.
  - intros o Ho. destruct (Hs' o Ho) as [H|H]; [specialize (Hs o H); lia | assumption].
  - intros f Ho. destruct (Hf' f Ho) as [H|H]; [specialize (Hf f H); lia | assumption].
Qed.

Lemma addFolder_folders (name : string) (f : ref) (g g' : GUI) (x : Folder) :
  addFolder name f g = Some g' -> x ∈ folders g' ->
  x ∈ folders g \/ folder_ref x = f.
Proof.
  unfold addFolder. intros E Hx.
  assert (E' : g' = {| policy := policy g;
                       folders := folders g ++ [{| folder_ref := f; folder_name := name |}] |}).
  { destruct (policy g); [destruct (has_folder_named name g); [discriminate|]|];
      injection E as <-; reflexivity. }
  subst g'. cbn [folders] in Hx. apply elem_of_app in Hx as [Hx|Hx]; [left; assumption|].
  apply list_elem_of_singleton in Hx. subst x. right. reflexivity.
Qed.

Lemma Registry_addLight_allocated (type : string) (position : option Vector3)
  (r : Registry) :
  refs_allocated r -> refs_allocated (state_of (Registry_addLight type position r)).
Proof.
  intros Hr. unfold Registry_addLight. destruct (is_light_type type); [|assumption].
  cbn [alloc fresh scene_add set_gui gui next_ref scene heap objects lightSources sounds].
  destruct (addFolder _ _ _) as [g|] eqn:E; cbn [state_of].
  - apply (allocated_grow r); [assumption | cbn; lia | |].
    + cbn. intros o. rewrite !elem_of_union, !elem_of_singleton.
      intros [->|[->|H]]; [right; lia | right; lia | left; assumption].
    + cbn. intros f Hf. destruct (addFolder_folders _ _ _ _ f E Hf) as [H|H];
        [left; assumption | right; lia].
  - apply (allocated_grow r); [assumption | cbn; lia | |].
    + cbn. intros o. rewrite !elem_of_union, !elem_of_singleton.
      intros [->|[->|H]]; [right; lia | right; lia | left; assumption].
    + cbn. intros f Hf. left. assumption.
Qed.

Lemma Registry_removeLight_allocated (name : string) (r : Registry) :
  refs_allocated r -> refs_allocated (Registry_removeLight name r).
Proof.
  intros Hr. unfold Registry_removeLight.
  destruct (List.find _ _) as [s|]; [|assumption].
  apply (allocated_grow r); [assumption | | |].
  - destruct (ls_helper s), (ls_folder s); cbn; lia.
  - intros o Ho. left. destruct (ls_helper s), (ls_folder s); cbn in Ho;
      rewrite ?elem_of_difference in Ho; tauto.
  - intros f Hf. left. destruct (ls_helper s), (ls_folder s); cbn in Hf;
      rewrite ?list_elem_of_filter in Hf; tauto.
Qed.

Lemma Registry_addObject_allocated (type : string) (rx rz : Q) (r : Registry) :
  refs_allocated r -> refs_allocated (state_of (Registry_addObject type rx rz r)).
Proof.
  intros Hr. unfold Registry_addObject. destruct (is_object_type type); [|assumption].
  cbn [alloc fresh scene_add set_gui set_objects gui next_ref scene heap objects
       lightSources sounds].
  destruct (addFolder _ _ _) as [g|] eqn:E; cbn [state_of].
  - apply (allocated_grow r); [assumption | cbn; lia | |].
    + cbn. intros o. rewrite !elem_of_union, !elem_of_singleton.
      intros [->|H]; [right; lia | left; assumption].
    + cbn. intros f Hf. destruct (addFolder_folders _ _ _ _ f E Hf) as [H|H];
        [left; assumption | right; lia].
  - apply (allocated_grow r); [assumption | cbn; lia | |].
    + cbn. intros o. rewrite !elem_of_union, !elem_of_singleton.
      intros [->|H]; [right; lia | left; assumption].
    + cbn. intros f Hf. left. assumption.
Qed.

Lemma Registry_deleteObject_allocated (mesh folder : ref) (r : Registry) :
  refs_allocated r -> refs_allocated (Registry_deleteObject mesh folder r).
Proof.
  intros Hr. apply (allocated_grow r); [assumption | cbn; lia | |].
  - cbn. intros o Ho. left. rewrite elem_of_difference in Ho. tauto.
  - cbn. intros f Hf. left. rewrite list_elem_of_filter in Hf. tauto.
Qed.

Lemma add_static_allocated (r : Registry) :
  refs_allocated r -> refs_allocated (add_static r).
Proof.
  intros Hr. apply (allocated_grow r); [assumption | cbn; lia | |].
  - cbn. intros o. rewrite elem_of_union, elem_of_singleton.
    intros [->|H]; [right; lia | left; assumption].
  - cbn. intros f Hf. left. assumption.
Qed.

Lemma add_panel_allocated (name : string) (r : Registry) :
  refs_allocated r -> refs_allocated (add_panel name r).
Proof.
  intros Hr. unfold add_panel. cbn [fresh gui].
  destruct (addFolder _ _ _) as [g|] eqn:E.
  - apply (allocated_grow r); [assumption | cbn; lia | |].
    + cbn. intros o Ho. left. assumption.
    + cbn. intros f Hf. destruct (addFolder_folders _ _ _ _ f E Hf) as [H|H];
        [left; assumption | right; lia].
  - apply (allocated_grow r); [assumption | cbn; lia | |].
    + cbn. intros o Ho. left. assumption.
    + cbn. intros f Hf. left. assumption.
Qed.

Lemma initial_lights_allocated (p : FolderPolicy) : refs_allocated (initial_lights p).
Proof.
  unfold initial_lights. cbv zeta.
  repeat first [ apply Registry_addLight_allocated
               | apply add_panel_allocated
               | apply add_static_allocated ].
  split; cbn; [intros o Ho; apply not_elem_of_empty in Ho; contradiction
              | intros f Hf; apply elem_of_nil in Hf; contradiction].
Qed.

Section ReachableRegistry.
Variable Math_random : N -> Q.

Lemma addLight_registry (type : string) (position : option Vector3)
  (st : LightingVisualizer) :
  registry (state_of (addLight type position st)) =
  state_of (Registry_addLight type position (registry st)).
Proof. unfold addLight. destruct (Registry_addLight _ _ _); reflexivity. Qed.

Lemma addObject_registry (type : string) (st : LightingVisualizer) :
  registry (state_of (addObject Math_random type st)) =
  state_of (Registry_addObject type (Math_random (draws st))
              (Math_random (draws st + 1)) (registry st)).
Proof. unfold addObject. destruct (Registry_addObject _ _ _ _); reflexivity. Qed.

Lemma updateRain_registry (st : LightingVisualizer) :
  registry (updateRain Math_random st) = registry st.
Proof.
  unfold updateRain. destruct (rain (weather st)); [|reflexivity].
  destruct (isRaining (weather st)); [|reflexivity].
  destruct (fold_left _ _ _). reflexivity.
Qed.

Lemma animate_registry (d d' : Q) (st : LightingVisualizer) :
  registry (animate Math_random d d' st) = registry st.
Proof.
  unfold animate. cbn [registry with_nature]. rewrite updateRain_registry.
  destruct (JS.gtb (timeSpeed st) 0); reflexivity.
Qed.

Lemma handle_allocated (st : LightingVisualizer) (e : Event) :
  refs_allocated (registry st) ->
  refs_allocated (registry (handle Math_random st e)).
Proof.
  intros Hr. destruct e; cbn [handle].
  - rewrite animate_registry. assumption.
  - assumption.
  - assumption.
  - assumption.
  - unfold onRainEnabledChange. destruct (rain (weather st)); [|assumption].
    destruct (if value then _ else _). assumption.
  - assumption.
  - rewrite addLight_registry. apply Registry_addLight_allocated. assumption.
  - apply Registry_removeLight_allocated. assumption.
  - rewrite addObject_registry. apply Registry_addObject_allocated. assumption.
  - apply Registry_deleteObject_allocated. assumption.
Qed.

Lemma createRain_registry (st : LightingVisualizer) :
  registry (createRain Math_random st) = add_static (registry st).
Proof.
  unfold createRain.
  destruct (fill_rain Math_random rainCount (draws st)) as [[ps vs] k].
  reflexivity.
Qed.

Lemma updateTimeOfDay_registry (st : LightingVisualizer) :
  registry (updateTimeOfDay st) = registry st.
Proof. reflexivity. Qed.

Lemma with_clock_registry (c : Clock) (st : LightingVisualizer) :
  registry (with_clock c st) = registry st.
Proof. reflexivity. Qed.

Lemma constructor_allocated (p : FolderPolicy) :
  refs_allocated (registry (constructor Math_random p)).
Proof.
  unfold constructor. cbv zeta.
  rewrite updateTimeOfDay_registry, with_clock_registry, createRain_registry.
  apply add_static_allocated.
  rewrite !addObject_registry.
  repeat apply Registry_addObject_allocated.
  cbn [registry]. apply initial_lights_allocated.
Qed.

Lemma run_allocated (es : list Event) (st : LightingVisualizer) :
  refs_allocated (registry st) ->
  refs_allocated (registry (run Math_random es st)).
Proof.
  revert st. induction es as [|e es IH]; intros st Hr; [assumption|].
  change (run Math_random (e :: es) st)
    with (run Math_random es (handle Math_random st e)).
  apply IH. apply handle_allocated. assumption.
Qed.

(** In every state reached from the constructor, a light created under a
    name no live light and no folder carries, and removed by that name,
    leaves the scene, the panel, the lights and the objects as they were. *)
Lemma reachable_light_roundtrip
  (p : FolderPolicy) (es : list Event) (type : string) :
  let st := run Math_random es (constructor Math_random p) in
  let st' := removeLight (light_name type (registry st))
               (state_of (addLight type None st)) in
  is_light_type type = true ->
  name_is_free (light_name type (registry st)) (registry st) ->
  scene (registry st') = scene (registry st) /\
  gui (registry st') = gui (registry st) /\
  lightSources (registry st') = lightSources (registry st) /\
  objects (registry st') = objects (registry st).
Proof.
  intros st st' Ht Hfree. subst st'. unfold removeLight.
  cbn [registry with_registry]. rewrite addLight_registry.
  apply light_roundtrip_when_name_is_free; [assumption| |assumption].
  apply run_allocated, constructor_allocated.
Qed.
End ReachableRegistry.

Section RegistryProperties.
Variable Math_random : N -> Q.

(** The six creations of the constructor run to their end under either
    panel: no name is taken twice there. *)
Lemma constructor_names (p : FolderPolicy) :
  let r := registry (constructor Math_random p) in
  map ls_name (lightSources r) =
    ["Directional Light 1 (edit or remove)"; "Point Light 2 (edit or remove)";
     "Spot Light 3 (edit or remove)"] /\
  map folder_name (folders (gui r)) =
    ["Controls"; "Camera"; "Time Controls"; "Ambient Light"; "Add Lighting";
     "Post-Processing"; "Add Objects"; "Sound";
     "Directional Light 1 (edit or remove)"; "Point Light 2 (edit or remove)";
     "Spot Light 3 (edit or remove)"; "Sphere 1 (edit or remove)";
     "Cube 2 (edit or remove)"; "Torus 3 (edit or remove)"] /\
  length (objects r) = 3%nat.
Proof. destruct p; vm_compute; auto. Qed.

(** C1.  With the directional and the spot light of the constructor
    removed, one light is left, "Point Light 2".  Creating a point light
    now and removing it by the name just generated does not give that state
    back: the name is "Point Light 2" again, the removal detaches the
    earlier light, its helper and its folder, the registry ends empty, and
    the new light and helper stay in the scene. *)
Theorem light_roundtrip_breaks_on_reused_name (p : FolderPolicy) :
  let st := removeLight "Spot Light 3 (edit or remove)"
              (removeLight "Directional Light 1 (edit or remove)"
                 (constructor Math_random p)) in
  let id := light_name "Point" (registry st) in
  let created := state_of (addLight "Point" None st) in
  let st' := removeLight id created in
  let older := 16%nat in
  let newer := next_ref (registry st) in
  map (fun s => (ls_name s, ls_light s, ls_helper s, ls_folder s))
      (lightSources (registry st))
    = [("Point Light 2 (edit or remove)", older, Some 17%nat, Some 18%nat)] /\
  id = "Point Light 2 (edit or remove)" /\
  length (lightSources (registry st')) = 0%nat /\
  (older ∈ scene (registry st) /\ (older ∉ scene (registry st'))) /\
  (17%nat ∈ scene (registry st) /\ (17%nat ∉ scene (registry st'))) /\
  ((newer ∉ scene (registry st)) /\ newer ∈ scene (registry st')) /\
  ((S newer ∉ scene (registry st)) /\ S newer ∈ scene (registry st')) /\
  map folder_ref (filter (fun f => folder_name f = id) (folders (gui (registry st))))
    = [18%nat] /\
  (forall f : Folder, f ∈ folders (gui (registry st')) -> folder_ref f ≠ 18%nat) /\
  scene (registry st') ≠ scene (registry st).
Proof.
  cbv zeta.
  split; [destruct p; vm_compute; reflexivity|].
  split; [destruct p; vm_compute; reflexivity|].
  split; [destruct p; vm_compute; reflexivity|].
  split; [split; [destruct p; is_member | destruct p; is_absent]|].
  split; [split; [destruct p; is_member | destruct p; is_absent]|].
  split; [split; [destruct p; is_absent | destruct p; is_member]|].
  split; [split; [destruct p; is_absent | destruct p; is_member]|].
  split; [destruct p; vm_compute; reflexivity|].
  split.
  - intros f Hf E. apply list_elem_of_fmap_2 with (f := folder_ref) in Hf.
    rewrite E in Hf. revert Hf. destruct p; is_absent.
  - intros E.
    assert (H : 16%nat ∈ scene (registry
              (removeLight "Spot Light 3 (edit or remove)"
                 (removeLight "Directional Light 1 (edit or remove)"
                    (constructor Math_random p))))) by (destruct p; is_member).
    rewrite <- E in H. revert H. destruct p; is_absent.
Qed.

(** C2.  With "Point Light 2" removed, two lights are left and the next
    creation is numbered 3 again, as the third was: a new spot light is
    named "Spot Light 3", the name of the spot light still in the registry.
    A panel that accepts the name leaves two entries under one id; one
    that refuses it cuts the creation short after the new light and its
    helper have joined the scene. *)
Theorem light_name_reused (p : FolderPolicy) :
  let st0 := constructor Math_random p in
  let st := removeLight "Point Light 2 (edit or remove)" st0 in
  let created := addLight "Spot" None st in
  map ls_name (lightSources (registry st))
    = ["Directional Light 1 (edit or remove)"; "Spot Light 3 (edit or remove)"] /\
  light_counter (registry st0) = 4%nat /\
  light_counter (registry st) = 3%nat /\
  light_name "Spot" (registry st) = "Spot Light 3 (edit or remove)" /\
  (exists s : LightSource,
     s ∈ lightSources (registry st) /\
     ls_name s = light_name "Spot" (registry st)) /\
  map ls_name (lightSources (registry (state_of created)))
    = match p with
      | AllowDuplicate =>
          ["Directional Light 1 (edit or remove)"; "Spot Light 3 (edit or remove)";
           "Spot Light 3 (edit or remove)"]
      | RejectDuplicate =>
          ["Directional Light 1 (edit or remove)"; "Spot Light 3 (edit or remove)"]
      end /\
  match p with
  | AllowDuplicate => exists s, created = Normal s
  | RejectDuplicate =>
      (exists s, created = Thrown s) /\
      next_ref (registry st) ∈ scene (registry (state_of created))
  end.
Proof.
  cbv zeta.
  split; [destruct p; vm_compute; reflexivity|].
  split; [destruct p; vm_compute; reflexivity|].
  split; [destruct p; vm_compute; reflexivity|].
  split; [destruct p; vm_compute; reflexivity|].
  split.
  - exists {| ls_name := "Spot Light 3 (edit or remove)"; ls_light := 19%nat;
              ls_helper := Some 20%nat; ls_color := 0xffffff%N; ls_intensity := 5;
              ls_type := "Spot"; ls_folder := Some 21%nat |}.
    split; [|destruct p; vm_compute; reflexivity].
    destruct p; vm_compute; right; left.
  - split; [destruct p; vm_compute; reflexivity|].
    destruct p.
    + split; [|is_member].
      unfold addLight.
      destruct (Registry_addLight _ _ _) as [r|r] eqn:E; [|eexists; reflexivity].
      vm_compute in E. discriminate E.
    + unfold addLight.
      destruct (Registry_addLight _ _ _) as [r|r] eqn:E; [eexists; reflexivity|].
      vm_compute in E. discriminate E.
Qed.

End RegistryProperties.

(** ** Worked instances *)

(** From hour 23.5, at the speed the constructor sets. *)
Lemma clock_resets_at_24_witness :
  let st := onHourChange 23.5 0 (constructor sample_random RejectDuplicate) in
  time (run sample_random (repeat (Frame 0.016 0) 100) st) == 0.5.
Proof.
  cbv zeta.
  refine (proj2 (proj2 (clock_resets_at_24 sample_random
            (onHourChange 23.5 0 (constructor sample_random RejectDuplicate))
            [Frame 0.016 0; SetSpeed 4; Frame 0.016 0] 0.016 0 _ _ _)) _ _).
  - vm_compute. discriminate.
  - vm_compute. reflexivity.
  - reflexivity.
  - reflexivity.
  - vm_compute. reflexivity.
Defined.

(** C3 (as stated) fails: from 23.5 at speed 4, twenty-five frames advance
    the clock by 1.0 hour in total; the remainder modulo 24 would be 0.5,
    the hour is 0.48, because the frame that reached 24.02 restarted the
    day at 0. *)
Lemma clock_does_not_wrap_modulo_24 :
  let st := onSpeedChange 4
              (onHourChange 23.5 0 (constructor sample_random RejectDuplicate)) in
  let st' := run sample_random (repeat (Frame 0.016 0) 25) st in
  time st == 23.5 /\ 25 * (timeSpeed st * 0.01) == 1 /\
  JS.rem (time st + 1) 24 == 0.5 /\
  time st' == 0.48 /\
  ~ time st' == JS.rem (time st + 1) 24.
Proof.
  cbv zeta. repeat split; try (vm_compute; reflexivity).
  vm_compute. discriminate.
Qed.

Lemma frame_advance_is_per_frame_witness :
  let st := constructor sample_random RejectDuplicate in
  time (animate sample_random 0.016 0 st) == 0.01.
Proof.
  cbv zeta.
  pose proof (proj1 (frame_advance_is_per_frame sample_random
                 (constructor sample_random RejectDuplicate) 0.016 0)) as H.
  rewrite H; [vm_compute; reflexivity | vm_compute; reflexivity
             | vm_compute; reflexivity].
Defined.

(** C7 (as stated) fails in the state the constructor leaves: a frame with
    no time elapsed moves the hour from 0 to 0.01, and frames with one and
    with two seconds elapsed move it by the same amount. *)
Lemma frame_advance_ignores_elapsed_time :
  let st := constructor sample_random RejectDuplicate in
  time st == 0 /\ timeSpeed st == 1 /\
  time (animate sample_random 0 0 st) == 0.01 /\
  ~ time (animate sample_random 0 0 st) == time st /\
  time (animate sample_random 1 0 st) == 0.01 /\
  time (animate sample_random 2 0 st) == 0.01.
Proof.
  cbv zeta. repeat split; try (vm_compute; reflexivity).
  vm_compute. discriminate.
Qed.

Lemma play_toggle_overwrites_speed_witness :
  let st := onSpeedChange 7 (constructor sample_random RejectDuplicate) in
  timeSpeed st == 7 /\
  timeSpeed (onPlayChange true (onPlayChange false st)) = 1.
Proof.
  cbv zeta. split; [vm_compute; reflexivity|].
  refine (proj1 (proj2 (play_toggle_overwrites_speed sample_random
            (onPlayChange false
               (onSpeedChange 7 (constructor sample_random RejectDuplicate)))
            true 0.016 0 3 _ _ _))).
  - vm_compute. discriminate.
  - vm_compute. reflexivity.
  - vm_compute. discriminate.
Defined.


(** Two objects under one display name in a panel that accepts it: the
    torus of the constructor and a torus created after the sphere was
    deleted.  Deleting the second leaves the first where it was. *)
Lemma deleteObject_removes_only_its_mesh_witness :
  let st := state_of (addObject sample_random "Torus"
              (deleteObject 22%nat 23%nat (constructor sample_random AllowDuplicate))) in
  let old_folder := {| folder_ref := 27%nat;
                       folder_name := "Torus 3 (edit or remove)" |} in
  let st' := deleteObject 29%nat 30%nat st in
  map folder_ref
    (filter (fun f => folder_name f = "Torus 3 (edit or remove)")
            (folders (gui (registry st)))) = [27%nat; 30%nat] /\
  26%nat ∈ scene (registry st') /\ 26%nat ∈ objects (registry st') /\
  old_folder ∈ folders (gui (registry st')) /\
  (29%nat ∉ scene (registry st')).
Proof.
  cbv zeta.
  destruct (deleteObject_removes_only_its_mesh
              (state_of (addObject sample_random "Torus"
                 (deleteObject 22%nat 23%nat
                    (constructor sample_random AllowDuplicate))))
              29%nat 30%nat 26%nat
              {| folder_ref := 27%nat; folder_name := "Torus 3 (edit or remove)" |})
    as (Hgone & _ & _ & Hscene & Hobjects & _ & Hfolder & _).
  - lia.
  - cbn. lia.
  - split; [vm_compute; reflexivity|].
    split; [apply Hscene; is_member|].
    split; [apply Hobjects; is_member|].
    split; [apply Hfolder; vm_compute; repeat constructor | exact Hgone].
Defined.

(** One tick of the small rain: the first particle would reach -0.2 and
    restarts at 100 with two new coordinates, the second falls to 49. *)
Lemma updateRain_drizzle :
  Forall2 Qeq (rain_positions (updateRain sample_random drizzle))
              [-100; 100; -75; 5; 49; 6] /\
  draws (updateRain sample_random drizzle) = 2%N.
Proof. split; vm_compute; repeat constructor. Qed.

(** * Further properties *)

(** ** Removing lights and objects *)

Lemma find_name_None (name : string) (l : list LightSource) :
  (forall s : LightSource, s ∈ l -> ls_name s ≠ name) ->
  List.find (fun source => String.eqb (ls_name source) name) l = None.
Proof.
  intros H. induction l as [|a l IH]; [reflexivity|]. cbn.
  destruct (String.eqb_spec (ls_name a) name) as [E|E].
  - exfalso. apply (H a); [left|assumption].
  - apply IH. intros s Hs. apply H. right. assumption.
Qed.

Lemma filter_name_id (name : string) (l : list LightSource) :
  (forall s : LightSource, s ∈ l -> ls_name s ≠ name) ->
  filter (fun source => ls_name source ≠ name) l = l.
Proof.
  intros H. induction l as [|a l IH]; [reflexivity|].
  rewrite filter_cons_True by (apply H; left). f_equal.
  apply IH. intros s Hs. apply H. right. assumption.
Qed.

Lemma find_name_Some (name : string) (l : list LightSource) (s : LightSource) :
  List.find (fun source => String.eqb (ls_name source) name) l = Some s ->
  s ∈ l /\ ls_name s = name.
Proof.
  intros H. apply List.find_some in H as [Hin He].
  split; [apply list_elem_of_In; assumption | apply String.eqb_eq; assumption].
Qed.

Lemma find_name_None_inv (name : string) (l : list LightSource) :
  List.find (fun source => String.eqb (ls_name source) name) l = None ->
  forall s : LightSource, s ∈ l -> ls_name s ≠ name.
Proof.
  intros H s Hs E. apply list_elem_of_In in Hs.
  pose proof (List.find_none _ _ H s Hs) as Hn. cbn in Hn.
  apply String.eqb_neq in Hn. contradiction.
Qed.

Lemma with_registry_id (st : LightingVisualizer) (f : Registry -> Registry) :
  f (registry st) = registry st -> with_registry f st = st.
Proof. intros E. destruct st. unfold with_registry. cbn in *. rewrite E. reflexivity. Qed.

Lemma Registry_removeLight_lights (name : string) (r : Registry) :
  lightSources (Registry_removeLight name r)
  = filter (fun source => ls_name source ≠ name) (lightSources r).
Proof.
  unfold Registry_removeLight.
  destruct (List.find _ _) as [s|] eqn:E.
  - destruct (ls_helper s), (ls_folder s); reflexivity.
  - symmetry. apply filter_name_id. apply find_name_None_inv. assumption.
Qed.

Lemma Registry_removeLight_absent (name : string) (r : Registry) :
  (forall s : LightSource, s ∈ lightSources r -> ls_name s ≠ name) ->
  Registry_removeLight name r = r.
Proof.
  intros H. unfold Registry_removeLight. rewrite find_name_None by assumption.
  reflexivity.
Qed.

(** X1.  [removeLight] with a name no live light carries changes nothing
    at all: no detachment, no folder removed, no sound requested. *)
Theorem removeLight_unknown_name (name : string) (st : LightingVisualizer) :
  (forall s : LightSource, s ∈ lightSources (registry st) -> ls_name s ≠ name) ->
  removeLight name st = st.
Proof.
  intros H. unfold removeLight. apply with_registry_id.
  apply Registry_removeLight_absent. exact H.
Qed.

(** X2.  After [removeLight] no live light carries the name: every entry
    of that name is dropped, the others stay in their order, and a second
    call with the name is without effect. *)
Theorem removeLight_clears_name (name : string) (st : LightingVisualizer) :
  let st' := removeLight name st in
  lightSources (registry st')
    = filter (fun source => ls_name source ≠ name) (lightSources (registry st)) /\
  (forall s : LightSource, s ∈ lightSources (registry st') -> ls_name s ≠ name) /\
  removeLight name st' = st'.
Proof.
  cbv zeta.
  assert (E : lightSources (registry (removeLight name st))
              = filter (fun source => ls_name source ≠ name)
                       (lightSources (registry st)))
    by apply Registry_removeLight_lights.
  assert (H : forall s : LightSource,
             s ∈ lightSources (registry (removeLight name st)) -> ls_name s ≠ name).
  { intros s Hs. rewrite E in Hs. apply list_elem_of_filter in Hs as [Hs _]. exact Hs. }
  split; [exact E|]. split; [exact H|].
  unfold removeLight at 1. apply with_registry_id.
  apply Registry_removeLight_absent. exact H.
Qed.

Lemma filter_filter_same {A : Type} (P : A -> Prop) `{!forall a, Decision (P a)}
  (l : list A) : filter P (filter P l) = filter P l.
Proof.
  induction l as [|a l IH]; [reflexivity|].
  destruct (decide (P a)) as [Ha|Ha].
  - rewrite (filter_cons_True P a l Ha), (filter_cons_True P a _ Ha), IH. reflexivity.
  - rewrite (filter_cons_False P a l Ha). exact IH.
Qed.

(** X3.  [deleteObject] asks for the removal sound before it looks at
    anything: run a second time on the same mesh and folder it leaves the
    scene, the object list and the panel as the first run left them and
    still logs a sound request, whereas a repeated [removeLight] logs
    nothing. *)
Theorem deleteObject_again (mesh folder : ref) (name : string)
  (st : LightingVisualizer) :
  let once := registry (deleteObject mesh folder st) in
  let twice := registry (deleteObject mesh folder (deleteObject mesh folder st)) in
  scene twice = scene once /\ objects twice = objects once /\
  gui twice = gui once /\ heap twice = heap once /\
  sounds once = sounds (registry st) ++ ["removeObject"] /\
  sounds twice = sounds once ++ ["removeObject"] /\
  sounds (registry (removeLight name (removeLight name st)))
    = sounds (registry (removeLight name st)).
Proof.
  cbv zeta.
  cbn [deleteObject with_registry registry Registry_deleteObject playSound
       scene_remove set_objects set_gui scene objects gui heap lightSources sounds
       removeFolder folders policy].
  split; [apply set_eq; intros o; rewrite !elem_of_difference; tauto|].
  split; [apply filter_filter_same|].
  split; [unfold removeFolder; cbn [folders policy]; f_equal; apply filter_filter_same|].
  split; [reflexivity|]. split; [reflexivity|]. split; [reflexivity|].
  destruct (removeLight_clears_name name st) as (_ & _ & E). rewrite E. reflexivity.
Qed.

(** ** The registry against the scene and the panel *)

Lemma NoDup_fmap_eq {A B : Type} (f : A -> B) (l : list A) (x y : A) :
  NoDup (f <$> l) -> x ∈ l -> y ∈ l -> f x = f y -> x = y.
Proof.
  induction l as [|a l IH]; intros Hnd Hx Hy E.
  - apply elem_of_nil in Hx. contradiction.
  - cbn in Hnd. apply NoDup_cons in Hnd as [Ha Hnd].
    apply elem_of_cons in Hx as [->|Hx]; apply elem_of_cons in Hy as [->|Hy].
    + reflexivity.
    + exfalso. apply Ha. rewrite E. apply list_elem_of_fmap_2. assumption.
    + exfalso. apply Ha. rewrite <- E. apply list_elem_of_fmap_2. assumption.
    + apply IH; assumption.
Qed.

Lemma is_light_allocated (r : Registry) (k : ref) :
  registry_consistent r -> is_light (heap r !! k) -> (k < next_ref r)%nat.
Proof.
  intros Hr H. destruct (heap r !! k) as [o|] eqn:E; [|contradiction].
  exact (heap_allocated r Hr k o E).
Qed.

Lemma is_mesh_allocated (r : Registry) (k : ref) :
  registry_consistent r -> is_mesh (heap r !! k) -> (k < next_ref r)%nat.
Proof.
  intros Hr H. destruct (heap r !! k) as [o|] eqn:E; [|contradiction].
  exact (heap_allocated r Hr k o E).
Qed.

(** A registry that only gained scene members, folders and stored objects
    is consistent if it was. *)
Lemma consistent_grow (r r' : Registry) :
  registry_consistent r ->
  (forall o : ref, o ∈ scene r -> o ∈ scene r') ->
  (forall f : Folder, f ∈ folders (gui r) -> f ∈ folders (gui r')) ->
  (forall (k : ref) (o : Obj), heap r !! k = Some o -> heap r' !! k = Some o) ->
  (forall (k : ref) (o : Obj), heap r' !! k = Some o -> (k < next_ref r')%nat) ->
  objects r' = objects r -> lightSources r' = lightSources r ->
  registry_consistent r'.
Proof.
  intros Hr Hs Hf Hh Ha Eo El.
  assert (Hl : forall k, is_light (heap r !! k) -> is_light (heap r' !! k)).
  { intros k. destruct (heap r !! k) as [o|] eqn:E; [|contradiction].
    rewrite (Hh k o E). trivial. }
  assert (Hm : forall k, is_mesh (heap r !! k) -> is_mesh (heap r' !! k)).
  { intros k. destruct (heap r !! k) as [o|] eqn:E; [|contradiction].
    rewrite (Hh k o E). trivial. }
  assert (Hp : forall l k, is_helper_of l (heap r !! k) -> is_helper_of l (heap r' !! k)).
  { intros l k. destruct (heap r !! k) as [o|] eqn:E; [|contradiction].
    rewrite (Hh k o E). trivial. }
  split.
  - rewrite Eo. intros m Hm'. destruct (objects_attached r Hr m Hm') as [H1 H2].
    split; [apply Hs; assumption | apply Hm; assumption].
  - rewrite Eo. apply (objects_distinct r Hr).
  - rewrite El. intros s Hs'.
    destruct (lights_attached r Hr s Hs') as (H1 & H2 & H3 & H4 & (f & Hf1 & Hf2) & H6 & H7).
    split; [assumption|]. split; [assumption|].
    split; [apply Hs; assumption|]. split; [apply Hs; assumption|].
    split; [exists f; split; [apply Hf; assumption | assumption]|].
    split; [apply Hl; assumption | apply Hp; assumption].
  - rewrite El. apply (lights_distinct r Hr).
  - assumption.
Qed.

Lemma consistent_empty (p : FolderPolicy) : registry_consistent (empty_registry p).
Proof.
  split; cbn.
  - intros m Hm. apply elem_of_nil in Hm. contradiction.
  - apply NoDup_nil_2.
  - intros s Hs. apply elem_of_nil in Hs. contradiction.
  - apply NoDup_nil_2.
  - intros k o H. rewrite lookup_empty in H. discriminate.
Qed.

Lemma consistent_add_static (r : Registry) :
  registry_consistent r -> registry_consistent (add_static r).
Proof.
  intros Hr. apply (consistent_grow r); try assumption; cbn; try reflexivity.
  - intros o Ho. apply elem_of_union. right. assumption.
  - auto.
  - auto.
  - intros k o H. pose proof (heap_allocated r Hr k o H). lia.
Qed.

Lemma addFolder_keeps (name : string) (f : ref) (g g' : GUI) (x : Folder) :
  addFolder name f g = Some g' -> x ∈ folders g -> x ∈ folders g'.
Proof.
  unfold addFolder. intros E Hx.
  assert (E' : g' = {| policy := policy g;
                       folders := folders g ++ [{| folder_ref := f; folder_name := name |}] |}).
  { destruct (policy g); [destruct (has_folder_named name g); [discriminate|]|];
      injection E as <-; reflexivity. }
  subst g'. cbn [folders]. apply elem_of_app. left. assumption.
Qed.

Lemma addFolder_new (name : string) (f : ref) (g g' : GUI) :
  addFolder name f g = Some g' ->
  {| folder_ref := f; folder_name := name |} ∈ folders g'.
Proof.
  unfold addFolder. intros E.
  assert (E' : g' = {| policy := policy g;
                       folders := folders g ++ [{| folder_ref := f; folder_name := name |}] |}).
  { destruct (policy g); [destruct (has_folder_named name g); [discriminate|]|];
      injection E as <-; reflexivity. }
  subst g'. cbn [folders]. apply elem_of_app. right. apply list_elem_of_singleton.
  reflexivity.
Qed.

Lemma consistent_add_panel (name : string) (r : Registry) :
  registry_consistent r -> registry_consistent (add_panel name r).
Proof.
  intros Hr. unfold add_panel. cbn [fresh gui].
  destruct (addFolder _ _ _) as [g|] eqn:E.
  - apply (consistent_grow r); try assumption; cbn; try reflexivity.
    + auto.
    + intros f Hf. apply (addFolder_keeps _ _ _ _ f E). assumption.
    + auto.
    + intros k o H. pose proof (heap_allocated r Hr k o H). lia.
  - apply (consistent_grow r); try assumption; cbn; try reflexivity.
    + auto.
    + auto.
    + auto.
    + intros k o H. pose proof (heap_allocated r Hr k o H). lia.
Qed.

Lemma consistent_playSound (name : string) (r : Registry) :
  registry_consistent r -> registry_consistent (playSound name r).
Proof.
  intros Hr. apply (consistent_grow r); try assumption; cbn; try reflexivity; auto.
  apply (heap_allocated r Hr).
Qed.

Lemma consistent_addLight (type : string) (position : option Vector3) (r : Registry) :
  registry_consistent r ->
  registry_consistent (state_of (Registry_addLight type position r)).
Proof.
  intros Hr. unfold Registry_addLight. destruct (is_light_type type); [|assumption].
  cbn [alloc fresh scene_add set_gui gui next_ref scene heap objects lightSources sounds].
  set (n := next_ref r).
  set (h' := <[S n := HelperObj n]>
               (<[n := LightObj type 16777215%N 5 position true]> (heap r))).
  assert (Hold : forall (k : ref) (o : Obj), heap r !! k = Some o -> h' !! k = Some o).
  { intros k o H. pose proof (heap_allocated r Hr k o H). unfold h'.
    rewrite !lookup_insert_ne by (unfold n; lia). assumption. }
  assert (Hnew : forall (k : ref) (o : Obj), h' !! k = Some o -> (k < S (S (S n)))%nat).
  { intros k o H. unfold h' in H.
    destruct (decide (k = S n)) as [->|N1]; [lia|].
    destruct (decide (k = n)) as [->|N2]; [lia|].
    rewrite !lookup_insert_ne in H by congruence.
    pose proof (heap_allocated r Hr k o H). unfold n. lia. }
  destruct (addFolder _ _ _) as [g|] eqn:E; cbn [state_of].
  2:{ apply (consistent_grow r); try assumption; cbn; try reflexivity.
      - intros o Ho. rewrite !elem_of_union. auto.
      - auto. }
  apply consistent_playSound.
  match goal with
  | |- registry_consistent (set_lightSources ?l ?r0) =>
      assert (H0 : registry_consistent r0)
  end.
  { apply (consistent_grow r); try assumption; cbn; try reflexivity.
    - intros o Ho. rewrite !elem_of_union. auto.
    - intros f Hf. apply (addFolder_keeps _ _ _ _ f E). assumption. }
  split; cbn [set_lightSources set_gui scene gui heap next_ref objects lightSources].
  - apply (objects_attached _ H0).
  - apply (objects_distinct _ H0).
  - intros s Hs. apply elem_of_app in Hs as [Hs|Hs].
    + apply (lights_attached _ H0 s). assumption.
    + apply list_elem_of_singleton in Hs. subst s. cbn [ls_light ls_helper ls_folder].
      split; [reflexivity|]. split; [reflexivity|].
      split; [rewrite !elem_of_union, !elem_of_singleton; auto|].
      split; [rewrite !elem_of_union, !elem_of_singleton; auto|].
      split.
      { eexists. split; [apply (addFolder_new _ _ _ _ E)|reflexivity]. }
      fold n. fold h'. unfold h'.
      split.
      * rewrite lookup_insert_ne by lia. rewrite lookup_insert_eq. exact I.
      * rewrite lookup_insert_eq. reflexivity.
  - rewrite fmap_app. cbn. apply NoDup_app. split; [apply (lights_distinct r Hr)|].
    split; [|apply NoDup_singleton].
    intros l Hl Hl'. apply list_elem_of_singleton in Hl'. subst l.
    apply list_elem_of_fmap in Hl as (s & Es & Hs).
    destruct (lights_attached r Hr s Hs) as (_ & _ & _ & _ & _ & H6 & _).
    pose proof (is_light_allocated r _ Hr H6). lia.
  - apply (heap_allocated _ H0).
Qed.

Lemma light_is_not_mesh (o : option Obj) : is_light o -> is_mesh o -> False.
Proof. destruct o as [[]|]; cbn; tauto. Qed.

Lemma helper_is_not_mesh (l : ref) (o : option Obj) : is_helper_of l o -> is_mesh o -> False.
Proof. destruct o as [[]|]; cbn; tauto. Qed.

Lemma helper_is_not_light (l : ref) (o : option Obj) : is_helper_of l o -> is_light o -> False.
Proof. destruct o as [[]|]; cbn; tauto. Qed.

Lemma consistent_removeLight (name : string) (r : Registry) :
  registry_consistent r -> registry_consistent (Registry_removeLight name r).
Proof.
  intros Hr. unfold Registry_removeLight.
  destruct (List.find _ _) as [s0|] eqn:E; [|assumption].
  apply find_name_Some in E as [Hin0 Hname0].
  destruct (lights_attached r Hr s0 Hin0) as (Eh & Ef & _ & _ & _ & Hl0 & Hh0).
  rewrite Eh, Ef. apply consistent_playSound.
  set (l0 := ls_light s0) in *.
  assert (Hother : forall s : LightSource,
             s ∈ lightSources r -> ls_name s ≠ name -> ls_light s ≠ l0).
  { intros s Hs Hn El. apply Hn. rewrite <- Hname0. f_equal.
    apply (NoDup_fmap_eq ls_light (lightSources r)); try assumption.
    apply (lights_distinct r Hr). }
  split; cbn [set_lightSources set_gui scene_remove scene gui heap next_ref objects
              lightSources removeFolder folders].
  - intros m Hm. destruct (objects_attached r Hr m Hm) as [H1 H2].
    split; [|assumption]. rewrite !elem_of_difference, !elem_of_singleton.
    split; [split; [assumption|]|].
    + intros ->. exact (light_is_not_mesh _ Hl0 H2).
    + intros ->. exact (helper_is_not_mesh _ _ Hh0 H2).
  - apply (objects_distinct r Hr).
  - intros s Hs. apply list_elem_of_filter in Hs as [Hn Hs].
    destruct (lights_attached r Hr s Hs) as (H1 & H2 & H3 & H4 & (f & Hf1 & Hf2) & H6 & H7).
    pose proof (Hother s Hs Hn) as Hne.
    split; [assumption|]. split; [assumption|].
    split.
    { rewrite !elem_of_difference, !elem_of_singleton.
      split; [split; [assumption|assumption]|].
      intros El. rewrite El in H6. exact (helper_is_not_light _ _ Hh0 H6). }
    split.
    { rewrite !elem_of_difference, !elem_of_singleton.
      split; [split; [assumption|]|].
      - intros El. rewrite El in H7. exact (helper_is_not_light _ _ H7 Hl0).
      - intros El. apply Hne. lia. }
    split; [|split; assumption].
    exists f. split; [|assumption]. apply list_elem_of_filter. split; [|assumption].
    rewrite Hf2. intros El. apply Hne. lia.
  - apply (NoDup_fmap_2_strong ls_light).
    + intros x y Hx Hy Exy. apply list_elem_of_filter in Hx as [_ Hx].
      apply list_elem_of_filter in Hy as [_ Hy].
      apply (NoDup_fmap_eq ls_light (lightSources r)); try assumption.
      apply (lights_distinct r Hr).
    + apply NoDup_filter. apply (NoDup_fmap_1 ls_light). apply (lights_distinct r Hr).
  - apply (heap_allocated r Hr).
Qed.

Lemma consistent_addObject (type : string) (rx rz : Q) (r : Registry) :
  registry_consistent r ->
  registry_consistent (state_of (Registry_addObject type rx rz r)).
Proof.
  intros Hr. unfold Registry_addObject. destruct (is_object_type type); [|assumption].
  cbn [alloc fresh scene_add set_gui set_objects gui next_ref scene heap objects
       lightSources sounds].
  set (n := next_ref r).
  match goal with
  | |- context [<[n := ?o]> (heap r)] => set (h' := <[n := o]> (heap r))
  end.
  assert (Hold : forall (k : ref) (o : Obj), heap r !! k = Some o -> h' !! k = Some o).
  { intros k o H. pose proof (heap_allocated r Hr k o H). unfold h'.
    rewrite lookup_insert_ne by (unfold n; lia). assumption. }
  assert (Hnew : forall (k : ref) (o : Obj), h' !! k = Some o -> (k < S (S n))%nat).
  { intros k o H. unfold h' in H.
    destruct (decide (k = n)) as [->|N2]; [lia|].
    rewrite lookup_insert_ne in H by congruence.
    pose proof (heap_allocated r Hr k o H). unfold n. lia. }
  assert (Hbase : forall g : GUI,
             (forall f : Folder, f ∈ folders (gui r) -> f ∈ folders g) ->
             registry_consistent
               {| scene := {[n]} ∪ scene r; gui := g; heap := h';
                  next_ref := S (S n); objects := objects r ++ [n];
                  lightSources := lightSources r; sounds := sounds r |}).
  { intros g Hg.
    assert (H0 : registry_consistent
               {| scene := {[n]} ∪ scene r; gui := g; heap := h';
                  next_ref := S (S n); objects := objects r;
                  lightSources := lightSources r; sounds := sounds r |}).
    { apply (consistent_grow r); try assumption; cbn; try reflexivity.
      intros o Ho. rewrite elem_of_union. auto. }
    split; cbn [scene gui heap next_ref objects lightSources].
    - intros m Hm. apply elem_of_app in Hm as [Hm|Hm].
      + apply (objects_attached _ H0 m). assumption.
      + apply list_elem_of_singleton in Hm. subst m.
        split; [rewrite elem_of_union, elem_of_singleton; auto|].
        unfold h'. rewrite lookup_insert_eq. exact I.
    - apply NoDup_app. split; [apply (objects_distinct r Hr)|].
      split; [|apply NoDup_singleton].
      intros m Hm Hm'. apply list_elem_of_singleton in Hm'. subst m.
      destruct (objects_attached r Hr n Hm) as [_ H2].
      pose proof (is_mesh_allocated r _ Hr H2). unfold n in *. lia.
    - apply (lights_attached _ H0).
    - apply (lights_distinct _ H0).
    - apply (heap_allocated _ H0). }
  destruct (addFolder _ _ _) as [g|] eqn:E; cbn [state_of].
  - apply consistent_playSound. cbn [set_gui scene gui heap next_ref objects lightSources sounds].
    apply Hbase. intros f Hf. apply (addFolder_keeps _ _ _ _ f E). assumption.
  - apply Hbase. auto.
Qed.

Lemma existsb_eqb_elem (m : nat) (l : list nat) :
  existsb (Nat.eqb m) l = true -> m ∈ l.
Proof.
  intros H. apply existsb_exists in H as (x & Hx & E).
  apply Nat.eqb_eq in E. subst x. apply list_elem_of_In. assumption.
Qed.

Lemma consistent_deleteObject (mesh : ref) (r : Registry) :
  registry_consistent r -> mesh ∈ objects r ->
  registry_consistent (Registry_deleteObject mesh (S mesh) r).
Proof.
  intros Hr Hm0. destruct (objects_attached r Hr mesh Hm0) as [_ Hmesh].
  unfold Registry_deleteObject.
  split; cbn [playSound set_lightSources set_gui set_objects scene_remove scene gui heap
              next_ref objects lightSources removeFolder folders].
  - intros m Hm. apply list_elem_of_filter in Hm as [Hne Hm].
    destruct (objects_attached r Hr m Hm) as [H1 H2].
    split; [|assumption]. rewrite elem_of_difference, elem_of_singleton.
    split; assumption.
  - apply NoDup_filter. apply (objects_distinct r Hr).
  - intros s Hs.
    destruct (lights_attached r Hr s Hs) as (H1 & H2 & H3 & H4 & (f & Hf1 & Hf2) & H6 & H7).
    split; [assumption|]. split; [assumption|].
    split.
    { rewrite elem_of_difference, elem_of_singleton. split; [assumption|].
      intros El. rewrite El in H6. exact (light_is_not_mesh _ H6 Hmesh). }
    split.
    { rewrite elem_of_difference, elem_of_singleton. split; [assumption|].
      intros El. rewrite El in H7. exact (helper_is_not_mesh _ _ H7 Hmesh). }
    split; [|split; assumption].
    exists f. split; [|assumption]. apply list_elem_of_filter. split; [|assumption].
    rewrite Hf2. intros El. injection El as El. rewrite El in H7.
    exact (helper_is_not_mesh _ _ H7 Hmesh).
  - apply (lights_distinct r Hr).
  - apply (heap_allocated r Hr).
Qed.

Lemma consistent_initial_lights (p : FolderPolicy) :
  registry_consistent (initial_lights p).
Proof.
  unfold initial_lights. cbv zeta.
  repeat first [ apply consistent_addLight
               | apply consistent_add_panel
               | apply consistent_add_static ].
  apply consistent_empty.
Qed.

Section ReachableConsistency.
Variable Math_random : N -> Q.

Lemma consistent_constructor (p : FolderPolicy) :
  registry_consistent (registry (constructor Math_random p)).
Proof.
  unfold constructor. cbv zeta.
  rewrite updateTimeOfDay_registry, with_clock_registry, createRain_registry.
  apply consistent_add_static.
  rewrite !addObject_registry.
  repeat apply consistent_addObject.
  cbn [registry]. apply consistent_initial_lights.
Qed.

Lemma consistent_handle (st : LightingVisualizer) (e : Event) :
  offered st e = true -> registry_consistent (registry st) ->
  registry_consistent (registry (handle Math_random st e)).
Proof.
  intros He Hr. destruct e; cbn [handle].
  - rewrite animate_registry. assumption.
  - assumption.
  - assumption.
  - assumption.
  - unfold onRainEnabledChange. destruct (rain (weather st)); [|assumption].
    destruct (if value then _ else _). assumption.
  - assumption.
  - rewrite addLight_registry. apply consistent_addLight. assumption.
  - apply consistent_removeLight. assumption.
  - rewrite addObject_registry. apply consistent_addObject. assumption.
  - cbn [offered] in He. apply andb_prop in He as [He _].
    apply andb_prop in He as [Hm Hf]. apply Nat.eqb_eq in Hf. subst folder.
    apply consistent_deleteObject; [assumption|].
    apply existsb_eqb_elem. assumption.
Qed.

(** X4.  In every state reached from the constructor through events the
    panel offers, the registry agrees with the scene and the panel: every
    listed object is a mesh attached to the scene, every live light is
    attached together with its helper and has its folder in the panel, and
    no light or mesh is listed twice. *)
Theorem registry_stays_consistent (p : FolderPolicy) (es : list Event) :
  offered_all Math_random es (constructor Math_random p) = true ->
  registry_consistent (registry (run Math_random es (constructor Math_random p))).
Proof.
  generalize (consistent_constructor p).
  generalize (constructor Math_random p). intros st Hr Hes.
  revert st Hr Hes. induction es as [|e es IH]; intros st Hr Hes; [assumption|].
  cbn [offered_all] in Hes. apply andb_prop in Hes as [He Hes].
  change (run Math_random (e :: es) st)
    with (run Math_random es (handle Math_random st e)).
  apply IH; [|assumption]. apply consistent_handle; assumption.
Qed.

End ReachableConsistency.

(** ** What the registry stores *)

Lemma Registry_addLight_lights (type : string) (position : option Vector3)
  (r : Registry) (s : LightSource) :
  s ∈ lightSources (state_of (Registry_addLight type position r)) ->
  s ∈ lightSources r \/
  (is_light_type type = true /\ ls_type s = type /\ ls_color s = 0xffffff%N /\
   ls_intensity s = 5 /\ ls_name s = light_name type r).
Proof.
  unfold Registry_addLight. destruct (is_light_type type) eqn:Et; [|auto].
  cbn [alloc fresh scene_add set_gui gui next_ref scene heap objects lightSources sounds].
  destruct (addFolder _ _ _) as [g|]; cbn [state_of]; [|auto].
  cbn [playSound set_lightSources lightSources]. intros Hs.
  apply elem_of_app in Hs as [Hs|Hs]; [left; assumption|].
  apply list_elem_of_singleton in Hs. subst s. right. cbn. auto.
Qed.

Lemma Registry_addObject_lights (type : string) (rx rz : Q) (r : Registry) :
  lightSources (state_of (Registry_addObject type rx rz r)) = lightSources r.
Proof.
  unfold Registry_addObject. destruct (is_object_type type); [|reflexivity].
  cbn [alloc fresh scene_add set_gui set_objects gui next_ref scene heap objects
       lightSources sounds].
  destruct (addFolder _ _ _); reflexivity.
Qed.

Lemma add_panel_lights (name : string) (r : Registry) :
  lightSources (add_panel name r) = lightSources r.
Proof. unfold add_panel. cbn [fresh gui]. destruct (addFolder _ _ _); reflexivity. Qed.

Lemma add_static_lights (r : Registry) :
  lightSources (add_static r) = lightSources r.
Proof. reflexivity. Qed.

Lemma entries_addLight (type : string) (position : option Vector3) (r : Registry) :
  (forall s : LightSource, s ∈ lightSources r -> entry_as_created s) ->
  forall s : LightSource,
    s ∈ lightSources (state_of (Registry_addLight type position r)) ->
    entry_as_created s.
Proof.
  intros H s Hs. apply Registry_addLight_lights in Hs as [Hs|(Ht & E1 & E2 & E3 & E4)].
  - apply H. assumption.
  - unfold entry_as_created. rewrite E1. split; [assumption|].
    split; [assumption|]. split; [assumption|].
    exists (light_counter r). split; [unfold light_counter; lia | exact E4].
Qed.

Lemma entries_initial_lights (p : FolderPolicy) :
  forall s : LightSource, s ∈ lightSources (initial_lights p) -> entry_as_created s.
Proof.
  unfold initial_lights. cbv zeta.
  repeat apply entries_addLight.
  repeat first [rewrite add_panel_lights | rewrite add_static_lights].
  cbn [empty_registry lightSources]. intros s Hs. apply elem_of_nil in Hs. contradiction.
Qed.

Section ReachableEntries.
Variable Math_random : N -> Q.

Lemma entries_handle (st : LightingVisualizer) (e : Event) :
  (forall s : LightSource, s ∈ lightSources (registry st) -> entry_as_created s) ->
  forall s : LightSource,
    s ∈ lightSources (registry (handle Math_random st e)) -> entry_as_created s.
Proof.
  intros H. destruct e; cbn [handle]; try exact H.
  - rewrite animate_registry. exact H.
  - unfold onRainEnabledChange. destruct (rain (weather st)); [|exact H].
    destruct (if value then _ else _). exact H.
  - rewrite addLight_registry. apply entries_addLight. exact H.
  - intros s Hs. cbn [removeLight registry with_registry] in Hs.
    rewrite Registry_removeLight_lights in Hs.
    apply list_elem_of_filter in Hs as [_ Hs]. apply H. assumption.
  - rewrite addObject_registry, Registry_addObject_lights. exact H.
Qed.

(** X5.  Whatever the sequence of events, every registered light is as
    [addLight] wrote it: its kind is one of "Directional", "Point", "Spot"
    (capitalised, so never one of the lower-case kinds the [LightSource]
    interface declares), it records white and intensity 5, and its name is
    the kind, " Light ", a number from 1 up and " (edit or remove)". *)
Theorem entries_stay_as_created (p : FolderPolicy) (es : list Event) (s : LightSource) :
  s ∈ lightSources (registry (run Math_random es (constructor Math_random p))) ->
  entry_as_created s /\
  ls_type s ≠ "spot" /\ ls_type s ≠ "point" /\ ls_type s ≠ "directional".
Proof.
  intros Hs.
  assert (H : entry_as_created s).
  { revert s Hs.
    assert (H0 : forall s : LightSource,
               s ∈ lightSources (registry (constructor Math_random p)) ->
               entry_as_created s).
    { unfold constructor. cbv zeta.
      rewrite updateTimeOfDay_registry, with_clock_registry, createRain_registry.
      rewrite add_static_lights.
      rewrite !addObject_registry, !Registry_addObject_lights. cbn [registry].
      apply entries_initial_lights. }
    revert H0. generalize (constructor Math_random p). intros st.
    revert st. induction es as [|e es IH]; intros st H0; [exact H0|].
    change (run Math_random (e :: es) st)
      with (run Math_random es (handle Math_random st e)).
    apply IH. apply entries_handle. exact H0. }
  split; [exact H|]. destruct H as (Ht & _).
  repeat split; intros E; rewrite E in Ht; discriminate Ht.
Qed.

(** X6.  [addObject] with one of the five shapes always attaches its mesh,
    whether or not the panel takes the folder: the mesh is in the scene
    and last in the object list, it is stored with the grey half-rough
    half-metal material, within 2.5 of the origin on both horizontal axes,
    at the height of its shape; the lights are not touched and two draws
    of [Math.random()] are used. *)
Theorem addObject_attaches_mesh (type : string) (st : LightingVisualizer) :
  (forall k : N, 0 <= Math_random k /\ Math_random k < 1) ->
  is_object_type type = true ->
  let st' := state_of (addObject Math_random type st) in
  let mesh := next_ref (registry st) in
  mesh ∈ scene (registry st') /\
  objects (registry st') = objects (registry st) ++ [mesh] /\
  lightSources (registry st') = lightSources (registry st) /\
  draws st' = (draws st + 2)%N /\
  exists position : Vector3,
    heap (registry st') !! mesh
      = Some (MeshObj type {| m_color := 0x808080%N; roughness := 0.5;
                              metalness := 0.5 |} position) /\
    (-2.5 <= vx position /\ vx position < 2.5) /\
    (-2.5 <= vz position /\ vz position < 2.5) /\
    vy position = (if (String.eqb type "Cylinder" || String.eqb type "Cone")%bool
                   then 1 else if String.eqb type "Torus" then 2 else 0.5).
Proof.
  intros Hrnd Ht. cbv zeta.
  assert (Ed : draws (state_of (addObject Math_random type st)) = (draws st + 2)%N).
  { unfold addObject. rewrite Ht. destruct (Registry_addObject _ _ _ _); reflexivity. }
  rewrite addObject_registry. unfold Registry_addObject. rewrite Ht.
  cbn [alloc fresh scene_add set_gui set_objects gui next_ref scene heap objects
       lightSources sounds].
  destruct (Hrnd (draws st)) as [Hx0 Hx1]. destruct (Hrnd (draws st + 1)%N) as [Hz0 Hz1].
  destruct (addFolder _ _ _) as [g|]; cbn [state_of playSound set_gui scene objects
                                            lightSources heap].
  all: split; [rewrite elem_of_union, elem_of_singleton; auto|].
  all: split; [reflexivity|]. all: split; [reflexivity|]. all: split; [exact Ed|].
  all: eexists; split; [apply lookup_insert_eq|].
  all: cbn [vx vy vz]; split; [split; lra|]; split; [split; lra|]; reflexivity.
Qed.

End ReachableEntries.

(** ** The hour and what is derived from it *)

Lemma rem_full_day (t : Q) : t == 24 -> JS.rem t 24 == 0.
Proof.
  intros E. unfold JS.rem.
  assert (Et : JS.trunc (t / 24) = 1%Z).
  { destruct t as [n d]. unfold Qeq in E. cbn in E. unfold JS.trunc. cbn.
    replace (n * 1)%Z with (Zpos (d * 24)) by lia.
    apply Z.quot_same. discriminate. }
  rewrite Et. change (inject_Z 1) with 1. lra.
Qed.

Lemma rem_on_dial (t : Q) :
  0 <= t -> t <= 24 -> 0 <= JS.rem t 24 /\ JS.rem t 24 < 24.
Proof.
  intros H0 H24. destruct (Qlt_le_dec t 24) as [Hlt|Hge].
  - rewrite rem_small by assumption. split; assumption.
  - rewrite rem_full_day by lra. split; lra.
Qed.

Lemma with_clock_clock (c : Clock) (st : LightingVisualizer) :
  clock (with_clock c st) = c.
Proof. reflexivity. Qed.

Lemma frame_time_on_dial (speed t : Q) :
  0 <= t -> t <= 24 -> 0 <= frame_time speed t /\ frame_time speed t <= 24.
Proof. intros H0 H24. unfold frame_time. unfold_js. cmp_cases; lra. Qed.

Section HourProperties.
Variable Math_random : N -> Q.

Lemma handle_time_on_dial (st : LightingVisualizer) (e : Event) :
  in_range e -> 0 <= time st -> time st <= 24 ->
  0 <= time (handle Math_random st e) /\ time (handle Math_random st e) <= 24.
Proof.
  intros He H0 H24. destruct (is_hour_slider e) eqn:Eh.
  - destruct e; try discriminate. cbn in He. cbn [handle]. exact He.
  - destruct (handle_time Math_random st e Eh) as [E|E]; rewrite E.
    + split; assumption.
    + apply frame_time_on_dial; assumption.
Qed.

(** X7.  With every slider inside its range, the hour never leaves
    [0,24] in any state reached from the constructor, the hour slider
    included (its top value 24 is stored as it is), and the hour that
    [updateTimeOfDay] derives from it lies in [0,24). *)
Theorem hour_stays_on_the_dial (p : FolderPolicy) (es : list Event) :
  Forall in_range es ->
  let st := run Math_random es (constructor Math_random p) in
  (0 <= time st /\ time st <= 24) /\
  (0 <= JS.rem (time st) 24 /\ JS.rem (time st) 24 < 24).
Proof.
  intros Hes. cbv zeta.
  assert (H : 0 <= time (run Math_random es (constructor Math_random p)) /\
              time (run Math_random es (constructor Math_random p)) <= 24).
  { assert (H0 : 0 <= time (constructor Math_random p) /\
                 time (constructor Math_random p) <= 24).
    { unfold constructor. cbv zeta. unfold time.
      rewrite updateTimeOfDay_clock, with_clock_clock. cbn [c_time]. split; lra. }
    revert H0. generalize (constructor Math_random p).
    induction Hes as [|e es He Hes IH]; intros st H0; [exact H0|].
    change (run Math_random (e :: es) st)
      with (run Math_random es (handle Math_random st e)).
    apply IH. destruct H0. apply handle_time_on_dial; assumption. }
  split; [exact H|]. destruct H. apply rem_on_dial; assumption.
Qed.

Lemma updateTimeOfDay_same_time (st1 st2 : LightingVisualizer) :
  time st1 = time st2 ->
  celestial (updateTimeOfDay st1) = celestial (updateTimeOfDay st2).
Proof. intros E. rewrite !updateTimeOfDay_celestial, E. reflexivity. Qed.

Lemma updateTimeOfDay_twice (st : LightingVisualizer) :
  celestial (updateTimeOfDay (updateTimeOfDay st)) = celestial (updateTimeOfDay st).
Proof. apply updateTimeOfDay_same_time. reflexivity. Qed.

Lemma updateRain_celestial (st : LightingVisualizer) :
  celestial (updateRain Math_random st) = celestial st.
Proof.
  unfold updateRain. destruct (rain (weather st)); [|reflexivity].
  destruct (isRaining (weather st)); [|reflexivity].
  destruct (fold_left _ _ _). reflexivity.
Qed.

Lemma handle_in_step (st : LightingVisualizer) (e : Event) :
  celestial (updateTimeOfDay st) = celestial st ->
  celestial (updateTimeOfDay (handle Math_random st e))
  = celestial (handle Math_random st e).
Proof.
  intros H.
  assert (Hsame : forall st' : LightingVisualizer,
             time st' = time st -> celestial st' = celestial st ->
             celestial (updateTimeOfDay st') = celestial st').
  { intros st' Et Ec. rewrite Ec, <- H. apply updateTimeOfDay_same_time. assumption. }
  destruct e; cbn [handle].
  - unfold animate. destruct (JS.gtb (timeSpeed st) 0).
    + match goal with
      | |- celestial (updateTimeOfDay ?a) = celestial ?a =>
          assert (Ec : celestial a
                       = celestial (updateTimeOfDay
                           (with_clock
                              {| c_time :=
                                   (if JS.geb (time st + timeSpeed st * 0.01) 24
                                    then 0 else time st + timeSpeed st * 0.01);
                                 c_timeSpeed := timeSpeed st;
                                 c_isPlaying := isPlaying st |} st)))
            by (cbn [celestial with_nature]; rewrite updateRain_celestial; reflexivity);
          assert (Et : time a
                       = (if JS.geb (time st + timeSpeed st * 0.01) 24
                          then 0 else time st + timeSpeed st * 0.01))
            by (unfold time; cbn [clock with_nature]; rewrite updateRain_clock;
                reflexivity)
      end.
      rewrite Ec. apply updateTimeOfDay_same_time. rewrite Et. reflexivity.
    + apply Hsame.
      * unfold time. cbn [clock with_nature]. rewrite updateRain_clock. reflexivity.
      * cbn [celestial with_nature]. apply updateRain_celestial.
  - unfold onHourChange. cbn [celestial with_nature].
    apply updateTimeOfDay_same_time. reflexivity.
  - apply Hsame; reflexivity.
  - apply Hsame; reflexivity.
  - apply Hsame; unfold onRainEnabledChange; destruct (rain (weather st));
      try reflexivity; destruct (if value then _ else _); reflexivity.
  - apply Hsame; reflexivity.
  - apply Hsame; unfold addLight; destruct (Registry_addLight _ _ _); reflexivity.
  - apply Hsame; reflexivity.
  - apply Hsame; unfold addObject; destruct (Registry_addObject _ _ _ _); reflexivity.
  - apply Hsame; reflexivity.
Qed.

(** X8.  In every state reached from the constructor, by any events, the
    lighting on display is the one of the current hour: running
    [updateTimeOfDay] once more would change nothing.  So the day flag
    is the test 6 <= hour < 18 on the stored hour, exactly one of sun and
    moon is visible, and the stars are visible exactly with the moon. *)
Theorem lighting_follows_the_hour (p : FolderPolicy) (es : list Event) :
  let st := run Math_random es (constructor Math_random p) in
  celestial (updateTimeOfDay st) = celestial st /\
  isDay (celestial st) = isDayAt (JS.rem (time st) 24) /\
  sunVisible (celestial st) = negb (moonVisible (celestial st)) /\
  starsVisible (celestial st) = moonVisible (celestial st) /\
  sunLightIntensity (celestial st) = sunIntensityAt (JS.rem (time st) 24) /\
  background (celestial st) = skyColorAt (JS.rem (time st) 24).
Proof.
  cbv zeta.
  assert (H : celestial (updateTimeOfDay (run Math_random es (constructor Math_random p)))
              = celestial (run Math_random es (constructor Math_random p))).
  { assert (H0 : celestial (updateTimeOfDay (constructor Math_random p))
                 = celestial (constructor Math_random p)).
    { unfold constructor. cbv zeta. apply updateTimeOfDay_twice. }
    revert H0. generalize (constructor Math_random p).
    induction es as [|e es IH]; intros st H0; [exact H0|].
    change (run Math_random (e :: es) st)
      with (run Math_random es (handle Math_random st e)).
    apply IH. apply handle_in_step. exact H0. }
  split; [exact H|]. rewrite <- H, updateTimeOfDay_celestial. cbv zeta.
  cbn [isDay sunVisible moonVisible starsVisible sunLightIntensity background].
  rewrite negb_involutive. repeat split; reflexivity.
Qed.

(** X9.  The sky dome of the nature scene keeps a day time of its own.  A
    frame with the clock running sets it to the new hour and then adds a
    tenth of both clock readings of the frame; a frame with the clock
    stopped leaves the hour alone and still adds a tenth of the reading,
    so the dome goes on while the clock is paused. *)
Theorem sky_dome_runs_on (st : LightingVisualizer) (d d' : Q) :
  (0 < timeSpeed st ->
   dayTime (natureScene (animate Math_random d d' st))
   = time (animate Math_random d d' st) + d * 0.1 + d' * 0.1) /\
  (timeSpeed st <= 0 ->
   time (animate Math_random d d' st) = time st /\
   dayTime (natureScene (animate Math_random d d' st))
   = dayTime (natureScene st) + d' * 0.1) /\
  skyColor (natureScene (animate Math_random d d' st))
  = natureSkyAt (dayTime (natureScene (animate Math_random d d' st))).
Proof.
  assert (Hn : forall st' : LightingVisualizer,
             natureScene (updateRain Math_random st') = natureScene st').
  { intros st'. unfold updateRain. destruct (rain (weather st')); [|reflexivity].
    destruct (isRaining (weather st')); [|reflexivity].
    destruct (fold_left _ _ _). reflexivity. }
  split; [|split].
  - intros Hs. rewrite animate_time. unfold animate, frame_time.
    assert (E : JS.gtb (timeSpeed st) 0 = true).
    { unfold_js. destruct (Qle_bool (timeSpeed st) 0) eqn:E; [|reflexivity].
      apply Qle_bool_iff in E. lra. }
    rewrite E. cbn [natureScene with_nature NatureScene_update dayTime].
    rewrite Hn. reflexivity.
  - intros Hs. split; [rewrite animate_time; apply frame_time_still; assumption|].
    unfold animate.
    assert (E : JS.gtb (timeSpeed st) 0 = false).
    { unfold_js. destruct (Qle_bool (timeSpeed st) 0) eqn:E; [reflexivity|].
      apply Qle_bool_false in E. lra. }
    rewrite E. cbn [natureScene with_nature NatureScene_update dayTime].
    rewrite Hn. reflexivity.
  - unfold animate. cbn [natureScene with_nature NatureScene_update dayTime skyColor].
    reflexivity.
Qed.

End HourProperties.

(** ** Light and sky at the regime boundaries *)

(** X10.  The directional light is at least 1 throughout the day and at
    most 1 at night, and it steps at both ends of the day: [eps] hours
    before sunrise it is [eps / 6], at sunrise 1; [eps] hours before
    sunset it is [1 + eps * 2 / 3], at sunset 0. *)
Theorem sun_light_steps_at_the_horizon (eps h : Q) :
  0 < eps -> eps <= 6 -> 0 <= h -> h < 24 ->
  (6 <= h /\ h < 18 -> 1 <= sunIntensityAt h) /\
  (h < 6 \/ 18 <= h -> sunIntensityAt h <= 1) /\
  sunIntensityAt (6 - eps) == eps / 6 /\ sunIntensityAt 6 == 1 /\
  sunIntensityAt (18 - eps) == 1 + eps * (2 / 3) /\ sunIntensityAt 18 == 0.
Proof.
  intros He0 He6 H0 H24.
  split.
  { intros [H6 H18]. rewrite sunIntensityAt_day by assumption.
    assert (Qabs (h - 12) <= 6) by (apply Qabs_Qle_condition; split; lra).
    inv_const. lra. }
  split.
  { intros Hn. rewrite sunIntensityAt_night by assumption.
    apply Q.max_lub; [lra|]. inv_const. lra. }
  split.
  { rewrite sunIntensityAt_night by (lra || (left; lra)).
    rewrite Q.max_r by (inv_const; lra). inv_const. lra. }
  split; [vm_compute; reflexivity|].
  split; [|vm_compute; reflexivity].
  rewrite sunIntensityAt_day by lra.
  assert (E : Qabs (18 - eps - 12) == 6 - eps) by (rewrite Qabs_pos; lra).
  rewrite E. inv_const. lra.
Qed.

Lemma clamp_cases (x : Q) :
  (x <= 0 /\ Qmin 1 (Qmax 0 x) == 0) \/
  (0 <= x /\ x <= 1 /\ Qmin 1 (Qmax 0 x) == x) \/
  (1 <= x /\ Qmin 1 (Qmax 0 x) == 1).
Proof.
  destruct (Qlt_le_dec x 0) as [Hn|Hp].
  - left. split; [lra|]. rewrite (Q.max_l 0 x) by lra. apply Q.min_r. lra.
  - destruct (Qlt_le_dec x 1) as [H1|H1].
    + right. left. split; [assumption|]. split; [lra|].
      rewrite (Q.max_r 0 x) by assumption. apply Q.min_r. lra.
    + right. right. split; [assumption|].
      rewrite (Q.max_r 0 x) by lra. apply Q.min_l. assumption.
Qed.

Ltac clamp_all :=
  repeat match goal with
  | |- context [Qmin 1 (Qmax 0 ?x)] =>
      let c := fresh "c" in
      let Hc := fresh "Hc" in
      pose proof (clamp_cases x) as Hc;
      set (c := Qmin 1 (Qmax 0 x)) in *; clearbody c
  end.

(** X11.  The sky dome of the nature scene and the scene background are
    computed by two copies of the same rule, the dome's with the rounded
    fractions 0.167 and 0.083.  Fed the same hour they give the same
    colour by day, before dawn and in full night; in the first 0.008 hour
    of dawn they are in different branches, the background already at
    saturation 0.9 and the dome still at 0.8. *)
Theorem sky_dome_against_background (h : Q) :
  0 <= h -> h < 24 ->
  (6 <= h /\ h < 18 -> HSL_eq (natureSkyAt h) (skyColorAt h)) /\
  (h < 4 -> HSL_eq (natureSkyAt h) (skyColorAt h)) /\
  (20 <= h -> HSL_eq (natureSkyAt h) (skyColorAt h)) /\
  (4 <= h /\ h < 4.008 ->
   saturation (skyColorAt h) == 0.9 /\ saturation (natureSkyAt h) == 0.8).
Proof.
  intros H0 H24. pose proof (rem_small h H0 H24) as Hr.
  unfold natureSkyAt, HSL_eq. revert Hr. generalize (JS.rem h 24). intros hr Hr.
  unfold_tod. inv_const.
  split; [|split; [|split]]; intros Hc; cmp_cases;
    cbn [hue saturation lightness]; try lra; clamp_all;
    repeat match goal with
    | H : _ \/ _ |- _ => destruct H as [H|H]
    end; repeat split; lra.
Qed.

(** ** Rain: switching, redrawing, columns and speeds *)

Section RainSwitch.
Variable Math_random : N -> Q.

Lemma updateRain_off (st : LightingVisualizer) :
  isRaining (weather st) = false -> updateRain Math_random st = st.
Proof.
  intros H. unfold updateRain. destruct (rain (weather st)); [|reflexivity].
  rewrite H. reflexivity.
Qed.

Lemma animate_draws (d d' : Q) (st : LightingVisualizer) :
  draws (animate Math_random d d' st) = draws (updateRain Math_random st).
Proof.
  unfold animate. cbn [draws with_nature].
  destruct (JS.gtb (timeSpeed st) 0); [|reflexivity].
  unfold updateRain.
  cbn [weather draws with_nature updateTimeOfDay with_celestial with_clock].
  destruct (rain (weather st)) as [pts|]; [|reflexivity].
  destruct (isRaining (weather st)); [|reflexivity].
  destruct (fold_left _ _ _) as [ps k]. reflexivity.
Qed.

Lemma shown_handle (st : LightingVisualizer) (e : Event) :
  is_Some (rain (weather st)) /\ rain_shown_while_raining (weather st) ->
  is_Some (rain (weather (handle Math_random st e))) /\
  rain_shown_while_raining (weather (handle Math_random st e)).
Proof.
  intros [[pts Hs] Hv]. unfold rain_shown_while_raining in *. rewrite Hs in Hv.
  assert (Hsame : forall st' : LightingVisualizer, weather st' = weather st ->
            is_Some (rain (weather st')) /\
            match rain (weather st') with
            | Some pts => visible pts = isRaining (weather st')
            | None => True
            end).
  { intros st' E. rewrite E, Hs. split; [eexists; reflexivity | assumption]. }
  destruct e; cbn [handle]; try (apply Hsame; reflexivity).
  - rewrite animate_weather. unfold updateRain. rewrite Hs.
    destruct (isRaining (weather st)) eqn:Ei.
    + destruct (fold_left _ _ _) as [ps k]. cbn. split; [eexists; reflexivity|].
      assumption.
    + rewrite Hs, Ei. split; [eexists; reflexivity | assumption].
  - unfold onRainEnabledChange. rewrite Hs.
    destruct (if value then _ else _) as [ps k]. cbn.
    split; [eexists; reflexivity | reflexivity].
  - cbn. rewrite Hs. split; [eexists; reflexivity | assumption].
  - apply Hsame. unfold addLight. destruct (Registry_addLight _ _ _); reflexivity.
  - apply Hsame. unfold addObject. destruct (Registry_addObject _ _ _ _); reflexivity.
Qed.

Lemma createRain_shown (st : LightingVisualizer) :
  isRaining (weather st) = false ->
  is_Some (rain (weather (createRain Math_random st))) /\
  rain_shown_while_raining (weather (createRain Math_random st)).
Proof.
  intros Hoff. unfold createRain.
  destruct (fill_rain Math_random rainCount (draws st)) as [[ps vs] k'].
  unfold fresh. cbv beta iota. unfold with_registry, with_weather.
  cbn [weather]. unfold rain_shown_while_raining. cbn [rain visible isRaining].
  split; [eexists; reflexivity | symmetry; exact Hoff].
Qed.

Lemma shown_constructor (p : FolderPolicy) :
  is_Some (rain (weather (constructor Math_random p))) /\
  rain_shown_while_raining (weather (constructor Math_random p)).
Proof.
  unfold constructor. cbv zeta.
  rewrite updateTimeOfDay_weather, with_clock_weather.
  apply createRain_shown. rewrite !addObject_weather. reflexivity.
Qed.

(** X12.  In every state reached from the constructor the rain exists and
    is visible exactly while it is raining; and a frame run while it is
    not raining leaves the whole rain state alone and draws no random
    number. *)
Theorem rain_shown_exactly_while_raining
  (p : FolderPolicy) (es : list Event) (d d' : Q) :
  let st := run Math_random es (constructor Math_random p) in
  (exists pts : Points,
     rain (weather st) = Some pts /\ visible pts = isRaining (weather st)) /\
  (isRaining (weather st) = false ->
   weather (animate Math_random d d' st) = weather st /\
   draws (animate Math_random d d' st) = draws st).
Proof.
  cbv zeta.
  assert (H : is_Some (rain (weather (run Math_random es (constructor Math_random p)))) /\
              rain_shown_while_raining
                (weather (run Math_random es (constructor Math_random p)))).
  { generalize (shown_constructor p). generalize (constructor Math_random p).
    induction es as [|e es IH]; intros st H0; [exact H0|].
    change (run Math_random (e :: es) st)
      with (run Math_random es (handle Math_random st e)).
    apply IH. apply shown_handle. exact H0. }
  destruct H as [[pts Hs] Hv]. unfold rain_shown_while_raining in Hv.
  rewrite Hs in Hv. split; [exists pts; split; assumption|].
  intros Hoff. rewrite animate_weather, animate_draws, updateRain_off by assumption.
  split; reflexivity.
Qed.






End RainSwitch.

Section RainColumns.
Variable Math_random : N -> Q.
Hypothesis random_range : forall k : N, 0 <= Math_random k /\ Math_random k < 1.

Lemma horizontals_insert (ps : list Q) (i : nat) (x : Q) :
  horizontals_in_range ps ->
  (forall j : nat, i = (3 * j)%nat \/ i = (3 * j + 2)%nat -> -100 <= x /\ x <= 100) ->
  horizontals_in_range (<[i := x]> ps).
Proof.
  intros Hps Hx j y [Hy|Hy];
    apply list_lookup_insert_Some in Hy as [(Ei & Ex & _)|(Hne & Hy)].
  - subst y. apply (Hx j). left. assumption.
  - apply (Hps j). left. assumption.
  - subst y. apply (Hx j). right. assumption.
  - apply (Hps j). right. assumption.
Qed.

Lemma fill_rain_columns (n : nat) (k : N) :
  let '(ps, vs, k') := fill_rain Math_random n k in
  horizontals_in_range ps /\
  (forall (j : nat) (v : Q), vs !! j = Some v -> 0.5 <= v /\ v < 1).
Proof.
  revert k. induction n as [|n IH]; intros k; cbn [fill_rain].
  - split.
    + intros j x [H|H]; rewrite lookup_nil in H; discriminate.
    + intros j v Hv. rewrite lookup_nil in Hv. discriminate.
  - specialize (IH (k + 4)%N).
    destruct (fill_rain Math_random n (k + 4)) as [[ps vs] k'].
    destruct IH as (Hh & Hv). split.
    + intros j x Hx. destruct j as [|j].
      * cbn in Hx. destruct Hx as [Hx|Hx]; injection Hx as <-.
        -- destruct (random_range k). split; lra.
        -- destruct (random_range (k + 2)). split; lra.
      * replace (3 * S j)%nat with (S (S (S (3 * j)))) in Hx by lia.
        replace (3 * S j + 2)%nat with (S (S (S (3 * j + 2)))) in Hx by lia.
        cbn in Hx. apply (Hh j). assumption.
    + intros j v Hj. destruct j as [|j].
      * cbn in Hj. injection Hj as <-. destruct (random_range (k + 3)). split; lra.
      * cbn in Hj. apply (Hv j). assumption.
Qed.

Lemma fall_columns (I : Q) (vel ps : list Q) (k : N) (m : nat) :
  horizontals_in_range ps ->
  horizontals_in_range (fall Math_random I vel (ps, k) (3 * m)).1.
Proof.
  intros Hps. rewrite fall_spec.
  destruct (ps !! (3 * m + 1)%nat) as [y|]; [|assumption].
  destruct (vel !! (3 * m / 3)%nat) as [v|]; [|assumption].
  destruct (JS.ltb (y - v * I) 0); cbn [fst].
  - repeat apply horizontals_insert; try assumption; intros j Ej; try lia;
      apply (spread_range Math_random random_range).
  - apply horizontals_insert; [assumption|]. intros j Ej. lia.
Qed.

Lemma respawn_columns (ps : list Q) (k : N) (m : nat) :
  horizontals_in_range ps ->
  horizontals_in_range (respawn Math_random (ps, k) (3 * m)).1.
Proof.
  intros Hps. cbn [respawn fst].
  repeat apply horizontals_insert; try assumption; intros j Ej; try lia;
    apply (spread_range Math_random random_range).
Qed.

Lemma fold_columns (f : list Q * N -> nat -> list Q * N) (l : list nat)
  (ps : list Q) (k : N) :
  (forall (ps : list Q) (k : N) (m : nat),
     horizontals_in_range ps -> horizontals_in_range (f (ps, k) (3 * m)%nat).1) ->
  multiples_of_3 l -> horizontals_in_range ps ->
  horizontals_in_range (fold_left f l (ps, k)).1.
Proof.
  intros Hf. revert ps k. induction l as [|i l IH]; intros ps k Hl Hps; [assumption|].
  cbn [fold_left]. destruct (f (ps, k) i) as [ps1 k1] eqn:E.
  apply IH.
  - intros i' Hi'. apply Hl. right. assumption.
  - destruct (Hl i) as [m ->]; [left|].
    change ps1 with (ps1, k1).1. rewrite <- E. apply Hf. assumption.
Qed.

Lemma columns_handle (st : LightingVisualizer) (e : Event) :
  horizontals_in_range (rain_positions st) ->
  horizontals_in_range (rain_positions (handle Math_random st e)).
Proof.
  unfold rain_positions. intros H.
  assert (Hsame : forall st' : LightingVisualizer, weather st' = weather st ->
            horizontals_in_range
              match rain (weather st') with Some pts => positions pts | None => [] end).
  { intros st' E. rewrite E. assumption. }
  destruct e; cbn [handle]; try (apply Hsame; reflexivity).
  - rewrite animate_weather. unfold updateRain.
    destruct (rain (weather st)) as [pts|] eqn:Er; [|rewrite Er; assumption].
    destruct (isRaining (weather st)); [|rewrite Er; assumption].
    pose proof (fold_columns (fall Math_random (rainIntensity (weather st)) (velocities pts))
                  (stride3 (length (positions pts))) (positions pts) (draws st)
                  (fun ps k m => fall_columns _ _ ps k m)
                  (stride3_multiples _) H) as Hf.
    destruct (fold_left _ _ _) as [ps k]. exact Hf.
  - unfold onRainEnabledChange.
    destruct (rain (weather st)) as [pts|] eqn:Er; [|assumption].
    destruct value.
    + pose proof (fold_columns (respawn Math_random)
                    (stride3 (length (positions pts))) (positions pts) (draws st)
                    respawn_columns (stride3_multiples _) H) as Hf.
      destruct (fold_left _ _ _) as [ps k]. exact Hf.
    + assumption.
  - exact H.
  - apply Hsame. unfold addLight. destruct (Registry_addLight _ _ _); reflexivity.
  - apply Hsame. unfold addObject. destruct (Registry_addObject _ _ _ _); reflexivity.
Qed.

Lemma createRain_columns (st : LightingVisualizer) :
  exists pts : Points,
    rain (weather (createRain Math_random st)) = Some pts /\
    horizontals_in_range (positions pts) /\
    (forall (j : nat) (v : Q), velocities pts !! j = Some v -> 0.5 <= v /\ v < 1).
Proof.
  unfold createRain.
  pose proof (fill_rain_columns rainCount (draws st)) as H.
  destruct (fill_rain Math_random rainCount (draws st)) as [[ps vs] k'].
  unfold fresh. cbv beta iota. unfold with_registry, with_weather.
  cbn [weather rain]. eexists. split; [reflexivity|]. exact H.
Qed.

Lemma constructor_columns (p : FolderPolicy) :
  horizontals_in_range (rain_positions (constructor Math_random p)) /\
  (forall (j : nat) (v : Q),
     rain_velocities (constructor Math_random p) !! j = Some v -> 0.5 <= v /\ v < 1).
Proof.
  unfold rain_positions, rain_velocities, constructor. cbv zeta.
  rewrite updateTimeOfDay_weather, with_clock_weather.
  match goal with
  | |- context [createRain Math_random ?X] =>
      destruct (createRain_columns X) as (pts & E & Hh & Hv)
  end.
  rewrite E. split; assumption.
Qed.

(** X14.  In every state reached from the constructor both horizontal
    coordinates of every rain particle lie in [-100,100]. *)
Theorem rain_stays_over_the_ground (p : FolderPolicy) (es : list Event) (j : nat) (x : Q) :
  let ps := rain_positions (run Math_random es (constructor Math_random p)) in
  ps !! (3 * j)%nat = Some x \/ ps !! (3 * j + 2)%nat = Some x ->
  -100 <= x /\ x <= 100.
Proof.
  cbv zeta.
  assert (H : horizontals_in_range
                (rain_positions (run Math_random es (constructor Math_random p)))).
  { generalize (proj1 (constructor_columns p)). generalize (constructor Math_random p).
    induction es as [|e es IH]; intros st H0; [exact H0|].
    change (run Math_random (e :: es) st)
      with (run Math_random es (handle Math_random st e)).
    apply IH. apply columns_handle. exact H0. }
  apply H.
Qed.




End RainColumns.
(** ** The nature scene: clouds, terrain, creatures *)

Lemma drift_range (w delta x : Q) :
  0 <= w -> 0 <= delta -> -100 <= x -> x <= 100 ->
  -100 <= (if JS.gtb (x + w * delta) 100 then -100 else x + w * delta) /\
  (if JS.gtb (x + w * delta) 100 then -100 else x + w * delta) <= 100.
Proof.
  intros Hw Hd H0 H1. pose proof (Qmult_le_0_compat _ _ Hw Hd) as Hwd.
  unfold_js. cmp_cases; lra.
Qed.

Lemma NatureScene_update_windSpeed (delta : Q) (n : NatureScene) :
  windSpeed (NatureScene_update delta n) = windSpeed n.
Proof. reflexivity. Qed.

Lemma NatureScene_update_clouds (delta : Q) (n : NatureScene) :
  0 <= windSpeed n -> 0 <= delta ->
  Forall over_terrain (clouds n) ->
  Forall over_terrain (clouds (NatureScene_update delta n)).
Proof.
  intros Hw Hd H. unfold NatureScene_update. cbn [clouds].
  induction H as [|x l [H0 H1] _ IH]; cbn [List.map]; constructor.
  - apply drift_range; assumption.
  - exact IH.
Qed.

Lemma NatureScene_updates_windSpeed (deltas : list Q) (n : NatureScene) :
  windSpeed (NatureScene_updates deltas n) = windSpeed n.
Proof.
  revert n. induction deltas as [|d ds IH]; intros n; [reflexivity|].
  unfold NatureScene_updates in *. cbn [fold_left]. rewrite IH. reflexivity.
Qed.

Lemma NatureScene_updates_length (deltas : list Q) (n : NatureScene) :
  length (clouds (NatureScene_updates deltas n)) = length (clouds n).
Proof.
  revert n. induction deltas as [|d ds IH]; intros n; [reflexivity|].
  unfold NatureScene_updates in *. cbn [fold_left]. rewrite IH.
  unfold NatureScene_update. cbn [clouds]. apply length_map.
Qed.

Lemma lookup_List_map {A B : Type} (f : A -> B) (l : list A) (i : nat) :
  List.map f l !! i = f <$> (l !! i).
Proof.
  revert i. induction l as [|a l IH]; intros [|i]; cbn; try reflexivity. apply IH.
Qed.

(** X16.  The clouds drift with the wind and are put back at the western
    edge, x = -100, as soon as they pass x = 100 (the overshoot is dropped,
    they do not re-enter where a wrap would put them); with a wind that
    does not blow backwards and a clock that does not run backwards, every
    cloud that starts over the terrain, x in [-100,100], is over it after
    any number of updates, no cloud is lost or added, and the wind speed is
    never changed. *)
Theorem clouds_stay_over_the_terrain (n : NatureScene) (deltas : list Q) :
  0 <= windSpeed n ->
  Forall (fun delta => 0 <= delta) deltas ->
  Forall over_terrain (clouds n) ->
  let n' := NatureScene_updates deltas n in
  Forall over_terrain (clouds n') /\
  length (clouds n') = length (clouds n) /\
  windSpeed n' = windSpeed n /\
  (forall (delta : Q) (i : nat) (x : Q),
     clouds n' !! i = Some x ->
     clouds (NatureScene_update delta n') !! i =
       Some (if JS.gtb (x + windSpeed n * delta) 100 then -100
             else x + windSpeed n * delta)).
Proof.
  intros Hw Hd Hc n'. subst n'.
  split; [|split; [apply NatureScene_updates_length|
           split; [apply NatureScene_updates_windSpeed|]]].
  - revert n Hw Hc. induction Hd as [|d ds H0 _ IH]; intros n Hw Hc; [exact Hc|].
    unfold NatureScene_updates in *. cbn [fold_left]. apply IH.
    + exact Hw.
    + apply NatureScene_update_clouds; assumption.
  - intros delta i x Hx. unfold NatureScene_update at 1. cbn [clouds].
    rewrite lookup_List_map, Hx, NatureScene_updates_windSpeed. reflexivity.
Qed.

Section NatureProperties.
Variable Math_random : N -> Q.
Variable noise : Q -> Q -> Q.
Hypothesis random_range : forall k : N, 0 <= Math_random k /\ Math_random k < 1.

(** *** Clouds as created *)

Lemma cloud_pieces_spec (n : nat) (k : N) :
  length (cloud_pieces Math_random n k).1 = n /\
  Forall piece_ok (cloud_pieces Math_random n k).1 /\
  (cloud_pieces Math_random n k).2 = (k + 4 * N.of_nat n)%N.
Proof.
  revert k. induction n as [|n IH]; intros k.
  - cbn. split; [reflexivity|]. split; [constructor|lia].
  - cbn [cloud_pieces]. specialize (IH (k + 4)%N).
    destruct (cloud_pieces Math_random n (k + 4)) as [rest k'].
    cbn [fst snd] in *. destruct IH as (IH1 & IH2 & IH3).
    split; [cbn [length]; lia|]. split; [|lia].
    constructor; [|exact IH2].
    pose proof (random_range k). pose proof (random_range (k + 1)).
    pose proof (random_range (k + 2)). pose proof (random_range (k + 3)).
    unfold piece_ok, in_box. cbn [p_position p_scale vx vy vz]. lra.
Qed.

Lemma cloudPieces_range (r : Q) :
  0 <= r -> r < 1 -> (5 <= Z.to_nat (5 + Math_floor (r * 5)) <= 9)%nat.
Proof.
  intros H0 H1. unfold Math_floor.
  assert (L : (0 <= Qfloor (r * 5))%Z).
  { change 0%Z with (Qfloor 0). apply Qfloor_resp_le. lra. }
  assert (U : (Qfloor (r * 5) < 5)%Z).
  { pose proof (Qfloor_le (r * 5)) as H.
    assert (H2 : inject_Z (Qfloor (r * 5)) < inject_Z 5).
    { change (inject_Z 5) with 5. lra. }
    rewrite <- Zlt_Qlt in H2. exact H2. }
  lia.
Qed.

Lemma spawn_clouds_spec (n : nat) (k : N) :
  length (spawn_clouds Math_random n k).1 = n /\
  Forall cloud_ok (spawn_clouds Math_random n k).1 /\
  (k + 25 * N.of_nat n <= (spawn_clouds Math_random n k).2)%N /\
  ((spawn_clouds Math_random n k).2 <= k + 41 * N.of_nat n)%N.
Proof.
  revert k. induction n as [|n IH]; intros k.
  - cbn. split; [reflexivity|]. split; [constructor|lia].
  - cbn [spawn_clouds].
    pose proof (random_range k) as [R0 R1].
    pose proof (cloudPieces_range _ R0 R1) as HP.
    set (m := Z.to_nat (5 + Math_floor (Math_random k * 5))) in *.
    pose proof (cloud_pieces_spec m (k + 1)) as (P1 & P2 & P3).
    destruct (cloud_pieces Math_random m (k + 1)) as [pieces k1].
    cbn [fst snd] in *.
    specialize (IH (k1 + 4)%N).
    destruct (spawn_clouds Math_random n (k1 + 4)) as [rest k'].
    cbn [fst snd] in *. destruct IH as (IH1 & IH2 & IH3 & IH4).
    split; [cbn [length]; lia|]. split; [|lia].
    constructor; [|exact IH2].
    pose proof (random_range k1). pose proof (random_range (k1 + 1)).
    pose proof (random_range (k1 + 2)). pose proof (random_range (k1 + 3)).
    unfold cloud_ok, in_box. cbn [cl_pieces cl_position cl_scale vx vy vz].
    split; [rewrite P1; exact HP|]. split; [exact P2|]. lra.
Qed.

(** X17.  [addClouds] creates ten clouds of five to nine pieces each; every
    piece sits within one unit of its cloud's centre (half a unit in
    height) at a scale in [0.5,1), every cloud sits over the terrain at a
    height in [30,50] with a scale in [5,10); it consumes between 250 and
    410 random numbers.  The registered clouds are the earlier ones followed
    by the ten new ones, and if the earlier ones were over the terrain, all
    of them are: the starting condition of the drift. *)
Theorem addClouds_places_clouds (n : NatureScene) (k : N) :
  Forall over_terrain (clouds n) ->
  let '(cs, n', k') := addClouds Math_random n k in
  length cs = 10%nat /\
  Forall cloud_ok cs /\
  clouds n' = clouds n ++ List.map (fun c => vx (cl_position c)) cs /\
  Forall over_terrain (clouds n') /\
  windSpeed n' = windSpeed n /\ dayTime n' = dayTime n /\
  (k + 250 <= k')%N /\ (k' <= k + 410)%N.
Proof.
  intros Hc. unfold addClouds.
  pose proof (spawn_clouds_spec cloudCount k) as (S1 & S2 & S3 & S4).
  destruct (spawn_clouds Math_random cloudCount k) as [cs k'].
  cbn [fst snd] in *. cbn [clouds windSpeed dayTime].
  split; [exact S1|]. split; [exact S2|]. split; [reflexivity|].
  split; [|split; [reflexivity|split; [reflexivity|unfold cloudCount in *; lia]]].
  apply Forall_app. split; [exact Hc|].
  clear S1 S3 S4. induction S2 as [|c l Hcl _ IH]; cbn [List.map]; constructor.
  - destruct Hcl as (_ & _ & ((H0 & H1) & _) & _). cbn [vx] in *. split; assumption.
  - exact IH.
Qed.

(** *** Creatures *)

Lemma spawn_birds_spec (n : nat) (k : N) :
  length (spawn_birds Math_random n k).1 = n /\
  Forall (fun a => a_kind a = Bird /\ in_box bird_volume.1 bird_volume.2 (a_position a))
    (spawn_birds Math_random n k).1 /\
  (spawn_birds Math_random n k).2 = (k + 3 * N.of_nat n)%N.
Proof.
  revert k. induction n as [|n IH]; intros k.
  - cbn. split; [reflexivity|]. split; [constructor|lia].
  - cbn [spawn_birds]. specialize (IH (k + 3)%N).
    destruct (spawn_birds Math_random n (k + 3)) as [rest k'].
    cbn [fst snd] in *. destruct IH as (IH1 & IH2 & IH3).
    split; [cbn [length]; lia|]. split; [|lia].
    constructor; [|exact IH2].
    pose proof (random_range k). pose proof (random_range (k + 1)).
    pose proof (random_range (k + 2)).
    split; [reflexivity|].
    unfold in_box, bird_volume. cbn [a_position vx vy vz fst snd]. lra.
Qed.

Lemma spawn_frogs_spec (n : nat) (k : N) :
  length (spawn_frogs Math_random n k).1 = n /\
  Forall (fun a => a_kind a = Frog /\ in_box frog_area.1 frog_area.2 (a_position a))
    (spawn_frogs Math_random n k).1 /\
  (spawn_frogs Math_random n k).2 = (k + 2 * N.of_nat n)%N.
Proof.
  revert k. induction n as [|n IH]; intros k.
  - cbn. split; [reflexivity|]. split; [constructor|lia].
  - cbn [spawn_frogs]. specialize (IH (k + 2)%N).
    destruct (spawn_frogs Math_random n (k + 2)) as [rest k'].
    cbn [fst snd] in *. destruct IH as (IH1 & IH2 & IH3).
    split; [cbn [length]; lia|]. split; [|lia].
    constructor; [|exact IH2].
    pose proof (random_range k). pose proof (random_range (k + 1)).
    split; [reflexivity|].
    unfold in_box, frog_area. cbn [a_position vx vy vz fst snd]. lra.
Qed.

(** X18.  [addAnimals] appends five birds and then eight frogs to the
    animals already there, using 31 random numbers.  Birds start in the
    volume [-40,40] x [10,20] x [-40,40], frogs on the ground level 0.3
    within [-20,20] x [-20,20].  Every flight target of [animateBird] is at
    a bird's starting height but only within [-20,20] horizontally: a bird
    that starts further out is pulled in by its first flight and never
    sent back out. *)
Theorem creatures_are_placed (animals : list Animal) (k k2 : N) :
  let '(animals', k') := addAnimals Math_random animals k in
  (exists birds frogs : list Animal,
     animals' = animals ++ birds ++ frogs /\
     length birds = 5%nat /\ length frogs = 8%nat /\
     Forall (fun a => a_kind a = Bird /\
                      in_box bird_volume.1 bird_volume.2 (a_position a)) birds /\
     Forall (fun a => a_kind a = Frog /\
                      in_box frog_area.1 frog_area.2 (a_position a)) frogs) /\
  k' = (k + 31)%N /\
  let '(target, k2') := animateBird_target Math_random k2 in
  in_box {| vx := -20; vy := 10; vz := -20 |} {| vx := 20; vy := 20; vz := 20 |}
    target /\
  in_box bird_volume.1 bird_volume.2 target /\
  k2' = (k2 + 3)%N.
Proof.
  unfold addAnimals.
  pose proof (spawn_birds_spec 5 k) as (B1 & B2 & B3).
  destruct (spawn_birds Math_random 5 k) as [birds k1]. cbn [fst snd] in *.
  pose proof (spawn_frogs_spec 8 k1) as (F1 & F2 & F3).
  destruct (spawn_frogs Math_random 8 k1) as [frogs k']. cbn [fst snd] in *.
  split; [exists birds, frogs; repeat split; assumption|].
  split; [lia|].
  unfold animateBird_target.
  pose proof (random_range k2). pose proof (random_range (k2 + 1)).
  pose proof (random_range (k2 + 2)).
  unfold in_box, bird_volume. cbn [vx vy vz fst snd].
  split; [lra|]. split; [lra|reflexivity].
Qed.

(** *** Terrain *)

Lemma terrain_height_range (x z : Q) :
  (forall a b : Q, -1 <= noise a b /\ noise a b <= 1) ->
  -17 <= terrain_height noise x z /\ terrain_height noise x z <= 17.
Proof.
  intros noise_range. unfold terrain_height.
  pose proof (noise_range (x * 0.01) (z * 0.01)).
  pose proof (noise_range (x * 0.05) (z * 0.05)).
  pose proof (noise_range (x * 0.1) (z * 0.1)). lra.
Qed.

Lemma raise_length (vs : list Q) (i : nat) : length (raise noise vs i) = length vs.
Proof.
  unfold raise. destruct (vs !! i); [|reflexivity].
  destruct (vs !! (i + 2)%nat); [|reflexivity]. apply length_insert.
Qed.

Lemma raise_other (vs : list Q) (i idx : nat) :
  idx <> (i + 1)%nat -> raise noise vs i !! idx = vs !! idx.
Proof.
  intros H. unfold raise. destruct (vs !! i); [|reflexivity].
  destruct (vs !! (i + 2)%nat); [|reflexivity].
  apply list_lookup_insert_ne. congruence.
Qed.

Lemma fold_raise_length (l : list nat) (vs : list Q) :
  length (fold_left (raise noise) l vs) = length vs.
Proof.
  revert vs. induction l as [|i l IH]; intros vs; [reflexivity|].
  cbn [fold_left]. rewrite IH. apply raise_length.
Qed.

Lemma fold_raise_other (l : list nat) (vs : list Q) (idx : nat) :
  (forall i : nat, i ∈ l -> idx <> (i + 1)%nat) ->
  fold_left (raise noise) l vs !! idx = vs !! idx.
Proof.
  revert vs. induction l as [|i l IH]; intros vs Hl; [reflexivity|].
  cbn [fold_left]. rewrite IH by (intros i' Hi'; apply Hl; right; assumption).
  apply raise_other. apply Hl. left.
Qed.

Lemma fold_raise_at (l : list nat) (vs : list Q) (j : nat) (x z : Q) :
  NoDup l -> multiples_of_3 l -> (3 * j)%nat ∈ l ->
  vs !! (3 * j)%nat = Some x -> vs !! (3 * j + 2)%nat = Some z ->
  fold_left (raise noise) l vs !! (3 * j + 1)%nat = Some (terrain_height noise x z).
Proof.
  revert vs. induction l as [|i l IH]; intros vs Hnd Hm Hj Hx Hz.
  - inversion Hj.
  - cbn [fold_left]. apply NoDup_cons in Hnd as [Hi Hnd].
    assert (Hm' : multiples_of_3 l) by (intros i' Hi'; apply Hm; right; exact Hi').
    destruct (decide (i = (3 * j)%nat)) as [->|Hne].
    + rewrite fold_raise_other.
      * unfold raise. rewrite Hx, Hz. apply list_lookup_insert_eq.
        apply lookup_lt_Some in Hz. lia.
      * intros i' Hi' E. assert (i' = (3 * j)%nat) by lia. subst i'. contradiction.
    + apply elem_of_cons in Hj as [Hj|Hj]; [congruence|].
      destruct (Hm i) as [m ->]; [left|].
      apply IH; try assumption.
      * rewrite raise_other by lia. exact Hx.
      * rewrite raise_other by lia. exact Hz.
Qed.

(** X19.  The vertex loop of [createTerrain] over a position array (three
    numbers a vertex): the array keeps its length, the first and third
    number of every vertex, which the height is computed from, are left as
    they were, and the second becomes the three-layer noise height of
    those two, whatever it held before.  With a noise function in [-1,1],
    as simplex noise is, every height is within 17 units of the plane. *)
Theorem terrain_heights_from_plane_coordinates
  (vertices : list Q) (j : nat) (x z : Q) :
  vertices !! (3 * j)%nat = Some x ->
  vertices !! (3 * j + 2)%nat = Some z ->
  let vertices' := createTerrain_vertices noise vertices in
  length vertices' = length vertices /\
  vertices' !! (3 * j)%nat = Some x /\
  vertices' !! (3 * j + 2)%nat = Some z /\
  vertices' !! (3 * j + 1)%nat = Some (terrain_height noise x z) /\
  ((forall a b : Q, -1 <= noise a b /\ noise a b <= 1) ->
   -17 <= terrain_height noise x z /\ terrain_height noise x z <= 17).
Proof.
  intros Hx Hz vertices'. subst vertices'. unfold createTerrain_vertices.
  split; [apply fold_raise_length|].
  split; [|split; [|split; [|apply terrain_height_range]]].
  - rewrite fold_raise_other; [exact Hx|].
    intros i Hi. destruct (stride3_multiples _ _ Hi) as [m ->]. lia.
  - rewrite fold_raise_other; [exact Hz|].
    intros i Hi. destruct (stride3_multiples _ _ Hi) as [m ->]. lia.
  - apply fold_raise_at; try assumption.
    + apply stride3_NoDup.
    + apply stride3_multiples.
    + apply stride3_elem. apply lookup_lt_Some in Hx. exact Hx.
Qed.

End NatureProperties.

(** ** Further worked instances *)

(** The three lights of the constructor are numbered 1 to 3. *)
Lemma removeLight_unknown_name_witness :
  let st := constructor sample_random RejectDuplicate in
  removeLight "Point Light 4 (edit or remove)" st = st.
Proof.
  cbv zeta. apply removeLight_unknown_name.
  apply (proj1 (Forall_forall _ _)). is_member.
Defined.

(** A session that creates and deletes objects and lights. *)
Lemma registry_stays_consistent_witness :
  registry_consistent
    (registry
       (run sample_random
          [AddObject "Cone"; DeleteObject 22%nat 23%nat; AddLight "Point";
           RemoveLight "Spot Light 3 (edit or remove)"; Frame 0.016 0;
           DeleteObject 29%nat 30%nat; AddLight "Spot"]
          (constructor sample_random RejectDuplicate))).
Proof. apply registry_stays_consistent. vm_compute. reflexivity. Defined.

(** The light a fourth creation registers. *)
Lemma entries_stay_as_created_witness :
  let s := {| ls_name := "Spot Light 4 (edit or remove)"; ls_light := 29%nat;
              ls_helper := Some 30%nat; ls_color := 0xffffff%N;
              ls_intensity := 5; ls_type := "Spot"; ls_folder := Some 31%nat |} in
  entry_as_created s /\ ls_type s ≠ "spot".
Proof.
  cbv zeta.
  destruct (entries_stay_as_created sample_random AllowDuplicate [AddLight "Spot"]
              {| ls_name := "Spot Light 4 (edit or remove)"; ls_light := 29%nat;
                 ls_helper := Some 30%nat; ls_color := 0xffffff%N;
                 ls_intensity := 5; ls_type := "Spot"; ls_folder := Some 31%nat |})
    as (H & H' & _).
  - vm_compute. repeat constructor.
  - split; [exact H | exact H'].
Defined.

Lemma addObject_attaches_mesh_witness :
  let st := constructor sample_random RejectDuplicate in
  let st' := state_of (addObject sample_random "Torus" st) in
  next_ref (registry st) ∈ scene (registry st') /\
  draws st' = (draws st + 2)%N.
Proof.
  cbv zeta.
  destruct (addObject_attaches_mesh sample_random "Torus"
              (constructor sample_random RejectDuplicate) sample_random_range)
    as (H & _ & _ & H' & _).
  - reflexivity.
  - split; [exact H | exact H'].
Defined.

(** The hour slider at its top value, then frames at the top speed. *)
Lemma hour_stays_on_the_dial_witness :
  let st := run sample_random
              [SetHour 24 0; SetSpeed 10; Frame 0.016 0; Frame 0.016 0]
              (constructor sample_random RejectDuplicate) in
  0 <= time st /\ time st <= 24.
Proof.
  cbv zeta.
  refine (proj1 (hour_stays_on_the_dial sample_random RejectDuplicate
            [SetHour 24 0; SetSpeed 10; Frame 0.016 0; Frame 0.016 0] _)).
  repeat constructor; cbn; lra.
Defined.

(** The constructor leaves the clock running at speed 1. *)
Lemma sky_dome_runs_on_witness :
  let st := constructor sample_random RejectDuplicate in
  dayTime (natureScene (animate sample_random 0.016 0.016 st))
  = time (animate sample_random 0.016 0.016 st) + 0.016 * 0.1 + 0.016 * 0.1.
Proof.
  cbv zeta.
  apply (proj1 (sky_dome_runs_on sample_random
                  (constructor sample_random RejectDuplicate) 0.016 0.016)).
  vm_compute. reflexivity.
Defined.

(** One hour before sunrise and one hour before sunset. *)
Lemma sun_light_steps_at_the_horizon_witness :
  sunIntensityAt (6 - 1) == 1 / 6 /\ sunIntensityAt (18 - 1) == 1 + 1 * (2 / 3) /\
  1 <= sunIntensityAt 12.
Proof.
  destruct (sun_light_steps_at_the_horizon 1 12 ltac:(lra) ltac:(lra) ltac:(lra)
              ltac:(lra)) as (Hd & _ & H6 & _ & H18 & _).
  split; [exact H6|]. split; [exact H18|]. apply Hd. lra.
Defined.

Lemma sky_dome_against_background_witness :
  saturation (skyColorAt 4.004) == 0.9 /\ saturation (natureSkyAt 4.004) == 0.8.
Proof.
  apply (proj2 (proj2 (proj2 (sky_dome_against_background 4.004
                                ltac:(lra) ltac:(lra))))).
  lra.
Defined.

(** The constructor leaves the rain switched off. *)
Lemma rain_shown_exactly_while_raining_witness :
  let st := constructor sample_random RejectDuplicate in
  weather (animate sample_random 0.016 0.016 st) = weather st.
Proof.
  cbv zeta.
  apply (proj2 (rain_shown_exactly_while_raining sample_random RejectDuplicate []
                  0.016 0.016)).
  vm_compute. reflexivity.
Defined.


(** The first particle as the constructor draws it. *)
Lemma rain_stays_over_the_ground_witness :
  -100 <= spread sample_random 6 /\ spread sample_random 6 <= 100.
Proof.
  apply (rain_stays_over_the_ground sample_random sample_random_range
           RejectDuplicate [SetRainIntensity 2; Frame 0.016 0] 0).
  left. vm_compute. reflexivity.
Defined.


(** Three clouds in the wind of the source, 0.2: the second passes the
    eastern edge and restarts at the western one. *)
Lemma clouds_stay_over_the_terrain_witness :
  let n := {| dayTime := 0; clouds := [-100; 99.9; 30]; windSpeed := 0.2;
              skyColor := {| hue := 0.6; saturation := 0.9; lightness := 0.7 |} |} in
  Forall over_terrain (clouds (NatureScene_updates [0.25; 0.5] n)) /\
  Forall2 Qeq (clouds (NatureScene_updates [0.25; 0.5] n)) [-99.85; -100; 30.15].
Proof.
  cbv zeta. split.
  - apply (clouds_stay_over_the_terrain
             {| dayTime := 0; clouds := [-100; 99.9; 30]; windSpeed := 0.2;
                skyColor := {| hue := 0.6; saturation := 0.9; lightness := 0.7 |} |}
             [0.25; 0.5]).
    + cbn. lra.
    + repeat constructor; lra.
    + repeat constructor; cbn; lra.
  - vm_compute. repeat constructor.
Defined.

Lemma addClouds_places_clouds_witness :
  let n := {| dayTime := 0; clouds := [12]; windSpeed := 0.2;
              skyColor := {| hue := 0; saturation := 0; lightness := 0 |} |} in
  length (addClouds sample_random n 0).1.1 = 10%nat /\
  Forall over_terrain (clouds (addClouds sample_random n 0).1.2).
Proof.
  cbv zeta.
  pose proof (addClouds_places_clouds sample_random sample_random_range
                {| dayTime := 0; clouds := [12]; windSpeed := 0.2;
                   skyColor := {| hue := 0; saturation := 0; lightness := 0 |} |} 0) as H.
  destruct (addClouds sample_random _ 0) as [[cs n'] k'].
  destruct H as (H1 & _ & _ & H2 & _).
  - repeat constructor; cbn; lra.
  - split; [exact H1 | exact H2].
Defined.

Lemma creatures_are_placed_witness :
  (addAnimals sample_random [] 0).2 = 31%N /\
  in_box bird_volume.1 bird_volume.2 (animateBird_target sample_random 7).1.
Proof.
  pose proof (creatures_are_placed sample_random sample_random_range [] 0 7) as H.
  destruct (addAnimals sample_random [] 0) as [animals' k'].
  destruct (animateBird_target sample_random 7) as [target k2'].
  destruct H as (_ & H1 & _ & H2 & _).
  split; [exact H1 | exact H2].
Defined.

(** Two vertices of a flat plane (third numbers 0) under a two-valued
    noise. *)
Lemma terrain_heights_from_plane_coordinates_witness :
  let noise := fun a b : Q => if Qle_bool a b then 1 else -1 in
  createTerrain_vertices noise [-100; 100; 0; 100; 100; 0] !! 4%nat
  = Some (terrain_height noise 100 0) /\
  terrain_height noise 100 0 <= 17.
Proof.
  cbv zeta.
  destruct (terrain_heights_from_plane_coordinates
              (fun a b : Q => if Qle_bool a b then 1 else -1)
              [-100; 100; 0; 100; 100; 0] 1 100 0)
    as (_ & _ & _ & H & H').
  - reflexivity.
  - reflexivity.
  - split; [exact H|]. apply H'. intros a b. destruct (Qle_bool a b); lra.
Defined.
